(** * mcp-taskwarrior-ai: context detection, intent classification,
      command synthesis and output normalisation

    A shallow embedding of [src/context.ts] (class [ContextManager]) and of
    the [TaskwarriorBridge] methods [parseNaturalLanguage] and
    [formatOutput] of [src/index.ts], followed by the properties of the
    specification that concern them.

    Strings.  A JavaScript string is modelled by [string]; every [ascii] is
    read as one code unit in the range 0..255, and the character classes of
    the source's regular expressions ([\s], [\d], [.], [\S], [[A-Z]]) and of
    [String.prototype.trim] are interpreted on that range.

    Effects.  The file system and the version-control client are an explicit
    environment [Env]; the [ContextManager]'s private field [context] is
    passed and returned explicitly; a rejected promise is [Throws].

    Two situations are outside the model.  The working directory is taken
    to exist, so that [process.cwd()], the first statement of
    [detectContext], returns; where the directory has been removed that
    statement throws.  And the field
    [currentFocus.ticket] of the state file is taken to be a string when
    it is present, as the declared type of [currentTicket] has it; the code
    stores a truthy value of any other JSON type as it finds it. *)

From Stdlib Require Import String Ascii List Bool Arith Lia.
Import ListNotations.
Open Scope list_scope.
Open Scope string_scope.

(* ===================================================================== *)
(** * Part I: the embedding                                               *)
(* ===================================================================== *)

(** ** Platform primitives: strings and regular expressions *)

Module Js.

Definition code (c : ascii) : nat := nat_of_ascii c.

Definition LF : ascii := ascii_of_nat 10.
Definition CR : ascii := ascii_of_nat 13.

(** The one-character string holding a line feed, written ['\n'] in the
    source. *)
Definition nl : string := String LF EmptyString.

(** [\s] and the characters removed by [trim]: TAB, LF, VT, FF, CR, SPACE
    and NBSP. *)
Definition is_space (c : ascii) : bool :=
  (Nat.leb 9 (code c) && Nat.leb (code c) 13)
  || Nat.eqb (code c) 32 || Nat.eqb (code c) 160.

(** [\d] *)
Definition is_digit (c : ascii) : bool :=
  Nat.leb 48 (code c) && Nat.leb (code c) 57.

(** [[A-Z]] *)
Definition is_upper (c : ascii) : bool :=
  Nat.leb 65 (code c) && Nat.leb (code c) 90.

(** Line terminators, the characters [.] does not match. *)
Definition is_line_terminator (c : ascii) : bool :=
  Nat.eqb (code c) 10 || Nat.eqb (code c) 13.

(** [.] *)
Definition dot (c : ascii) : bool := negb (is_line_terminator c).

(** [\S] *)
Definition non_space (c : ascii) : bool := negb (is_space c).

Definition lower (c : ascii) : ascii :=
  if is_upper c then ascii_of_nat (code c + 32) else c.

(** Comparison of two code units under the [i] flag. *)
Definition eq_ci (a b : ascii) : bool := Ascii.eqb (lower a) (lower b).

(** Truthiness of a string value. *)
Definition nonempty (s : string) : bool :=
  match s with EmptyString => false | String _ _ => true end.

(** [String.prototype.trim] *)
Fixpoint trimStart (s : string) : string :=
  match s with
  | EmptyString => EmptyString
  | String c s' => if is_space c then trimStart s' else s
  end.

Fixpoint trimEnd (s : string) : string :=
  match s with
  | EmptyString => EmptyString
  | String c s' =>
      let r := trimEnd s' in
      if is_space c && negb (nonempty r) then EmptyString else String c r
  end.

Definition trim (s : string) : string := trimEnd (trimStart s).

(** [s.startsWith(w)] *)
Fixpoint startsWith (w s : string) : bool :=
  match w, s with
  | EmptyString, _ => true
  | String a w', String b s' => Ascii.eqb a b && startsWith w' s'
  | String _ _, EmptyString => false
  end.

(** [s.includes(w)] *)
Fixpoint includes (w s : string) : bool :=
  startsWith w s ||
  match s with
  | EmptyString => false
  | String _ s' => includes w s'
  end.

(** [s.split(sep)] for a one-character separator. *)
Fixpoint split (sep : ascii) (s : string) : list string :=
  match s with
  | EmptyString => [EmptyString]
  | String c s' =>
      if Ascii.eqb c sep then EmptyString :: split sep s'
      else match split sep s' with
           | l :: ls => String c l :: ls
           | [] => [String c EmptyString]
           end
  end.

(** [parts.join(sep)] *)
Definition join (sep : string) (parts : list string) : string :=
  String.concat sep parts.

(** [arr.pop()] read as an expression: the last element, if any. *)
Definition pop (l : list string) : option string :=
  match rev l with x :: _ => Some x | [] => None end.

(** The text consumed between two positions of one string, each position
    given by the suffix that starts there. *)
Definition between (from to : string) : string :=
  substring 0 (String.length from - String.length to) from.

(** *** A backtracking matcher

    A pattern is a function from the rest of the input and a continuation
    to an optional result; alternatives are tried in the order the
    regular-expression engine tries them (greedy quantifiers give up one
    character at a time). *)
Section Matcher.
Context {A : Type}.

Definition matcher := string -> (string -> option A) -> option A.

(** One character of a class. *)
Definition one (p : ascii -> bool) : matcher := fun s k =>
  match s with
  | String c s' => if p c then k s' else None
  | EmptyString => None
  end.

(** [p+], greedy. *)
Fixpoint plus (p : ascii -> bool) (s : string) (k : string -> option A)
  : option A :=
  match s with
  | String c s' =>
      if p c then
        match plus p s' k with
        | Some r => Some r
        | None => k s'
        end
      else None
  | EmptyString => None
  end.

(** [p*], greedy. *)
Definition star (p : ascii -> bool) : matcher := fun s k =>
  match plus p s k with
  | Some r => Some r
  | None => k s
  end.

(** A literal word; [ci] is the [i] flag. *)
Fixpoint lit (ci : bool) (w : string) (s : string)
  (k : string -> option A) : option A :=
  match w with
  | EmptyString => k s
  | String a w' =>
      match s with
      | String b s' =>
          if (if ci then eq_ci a b else Ascii.eqb a b)
          then lit ci w' s' k else None
      | EmptyString => None
      end
  end.

(** [(w1|w2|...)]: the alternatives in order. *)
Fixpoint alt (ci : bool) (ws : list string) (s : string)
  (k : string -> option A) : option A :=
  match ws with
  | [] => None
  | w :: ws' =>
      match lit ci w s k with
      | Some r => Some r
      | None => alt ci ws' s k
      end
  end.

(** An unanchored pattern is tried at every position from the left. *)
Fixpoint search (m : string -> option A) (s : string) : option A :=
  match m s with
  | Some r => Some r
  | None =>
      match s with
      | String _ s' => search m s'
      | EmptyString => None
      end
  end.
End Matcher.

End Js.

(** ** Promises that may reject *)

Inductive result (A : Type) : Type :=
| Returns (a : A)
| Throws.
Arguments Returns {A} a.
Arguments Throws {A}.

Definition bind {A B : Type} (c : result A) (k : A -> result B) : result B :=
  match c with
  | Returns a => k a
  | Throws => Throws
  end.

Notation "x <- c ;; k" := (bind c (fun x => k))
  (at level 61, c at next level, right associativity).

(** ** The environment of a call *)

(** What the file system and the child processes answer during one call.
    [access p] is whether [fs.access(p)] resolves; [readFile p] is the
    contents [fs.readFile(p, 'utf-8')] resolves to, [None] when it rejects;
    [execAsync cmd] is the standard output of the command, [None] when the
    command cannot be run or exits with an error.  [cwd] is the path
    [process.cwd()] returns; a call made where the working directory no
    longer exists, in which [process.cwd()] throws, has no environment
    here. *)
Record Env : Type := mkEnv {
  cwd : string;
  access : string -> bool;
  readFile : string -> option string;
  execAsync : string -> option string
}.

(** ** src/context.ts *)

Record ProjectContext : Type := mkContext {
  currentTicket : option string;
  currentProject : option string;
  workspacePath : option string;
  ticketsPath : option string
}.

(** [private context: ProjectContext = {}] *)
Definition emptyContext : ProjectContext := mkContext None None None None.

Definition with_currentTicket (v : string) (c : ProjectContext) :=
  mkContext (Some v) (currentProject c) (workspacePath c) (ticketsPath c).
Definition with_currentProject (v : string) (c : ProjectContext) :=
  mkContext (currentTicket c) (Some v) (workspacePath c) (ticketsPath c).
Definition with_workspacePath (v : string) (c : ProjectContext) :=
  mkContext (currentTicket c) (currentProject c) (Some v) (ticketsPath c).
Definition with_ticketsPath (v : string) (c : ProjectContext) :=
  mkContext (currentTicket c) (currentProject c) (workspacePath c) (Some v).

(** Truthiness of an optional string field: present and not empty. *)
Definition truthy (o : option string) : bool :=
  match o with
  | Some s => Js.nonempty s
  | None => false
  end.

(** The string read from a field that holds one. *)
Definition get (o : option string) : string :=
  match o with
  | Some s => s
  | None => EmptyString
  end.

(** [o || d] for an optional string. *)
Definition or_else (o : option string) (d : string) : string :=
  if truthy o then get o else d.

(** The state file [.task-state.json] as [detectContext] reads it: the
    object [JSON.parse] returns, seen through the expression
    [taskState.currentFocus?.ticket].  [currentFocus] is [None] when the
    property is missing, [undefined] or [null]; [ticket] likewise, and when
    present it is a string, the declared type of [currentTicket].  A state
    file whose ticket is a truthy value of another JSON type (a number, an
    array, ...) has no counterpart here: the code would store that value as
    it is, so what is stated below about [currentTicket] after a call of
    [detectContext] either names the state-file ticket as a string or
    assumes that the state file supplies none. *)
Record Focus : Type := mkFocus { ticket : option string }.
Record TaskState : Type := mkTaskState { currentFocus : option Focus }.

Definition focus_ticket (taskState : TaskState) : option string :=
  match currentFocus taskState with
  | Some f => ticket f
  | None => None
  end.

(** [/^[A-Z]+-\d+/.test(branch)] *)
Definition ticket_code (branch : string) : bool :=
  match Js.plus Js.is_upper branch (fun s1 =>
        Js.lit false "-" s1 (fun s2 =>
        Js.plus Js.is_digit s2 (fun _ => Some tt))) with
  | Some _ => true
  | None => false
  end.

(** [line.match(/^- \[ \] (.+)/)], the value of [match[1]]. *)
Definition checkbox_item (line : string) : option string :=
  Js.lit false "- [ ] " line (fun s1 =>
  Js.plus Js.dot s1 (fun s2 => Some (Js.between s1 s2))).

(** [[:\s]] *)
Definition colon_or_space (c : ascii) : bool :=
  Ascii.eqb c ":" || Js.is_space c.

(** [/TODO[:\s]+(.+)/i] tried at the start of [s]: the text of group 1 and
    the input that follows the match. *)
Definition todo_at (s : string) : option (string * string) :=
  Js.lit true "TODO" s (fun s1 =>
  Js.plus colon_or_space s1 (fun s2 =>
  Js.plus Js.dot s2 (fun s3 => Some (Js.between s2 s3, s3)))).

(** [content.matchAll(re)] for a global pattern [re] without anchors: the
    successive matches, each search resuming where the previous match ended.
    [fuel] bounds the number of matches; [matchAll] gives the length of the
    text, which is enough since every match consumes a character (lemma
    [matchAll_fuel_enough] below). *)
Fixpoint matchAll_fuel (fuel : nat) (m : string -> option (string * string))
  (s : string) : list string :=
  match fuel with
  | O => []
  | S n =>
      match Js.search m s with
      | None => []
      | Some (g, rest) => g :: matchAll_fuel n m rest
      end
  end.

Definition matchAll (m : string -> option (string * string)) (s : string)
  : list string :=
  matchAll_fuel (String.length s) m s.

(** The loop over [content.split('\n')] of [getTicketTasks]. *)
Fixpoint checklist_tasks (lines : list string) : list string :=
  match lines with
  | [] => []
  | line :: rest =>
      match checkbox_item line with
      | Some text => text :: checklist_tasks rest
      | None => checklist_tasks rest
      end
  end.

(** The loop over [content.matchAll(/TODO[:\s]+(.+)/gi)]. *)
Definition todo_tasks (content : string) : list string :=
  map Js.trim (matchAll todo_at content).

Section ContextManager.

(** [path.join] of two segments. *)
Variable join : string -> string -> string.

(** [JSON.parse] followed by the reading of [currentFocus]: [None] when
    the text is not JSON or the parsed value is [null], on which the
    property access throws. *)
Variable parseTaskState : string -> option TaskState.

(** [private async exists(path)] *)
Definition exists_ (env : Env) (path : string) : bool := access env path.

(** [private async executeCommand(command)] *)
Definition executeCommand (env : Env) (command : string) : string :=
  match execAsync env command with
  | Some stdout => Js.trim stdout
  | None => EmptyString
  end.

(** The directory-name fallback, [path.split('/').pop() || 'general']. *)
Definition basename_or_general (path : string) : string :=
  or_else (Js.pop (Js.split "/" path)) "general".

(** [async detectContext()], from the value [context] of the private
    field, in an environment where [process.cwd()] returns.  The result is
    the field's new value, which is also the value the promise resolves to;
    when the promise rejects the field is left as it was, no assignment
    having been made yet.  The [try] around the
    version-control branch guards [executeCommand], which catches its own
    failures, so its [catch] block is never entered. *)
Definition detectContext (env : Env) (context : ProjectContext)
  : result ProjectContext :=
  let cwd := cwd env in
  let projectFilePath := join cwd ".taskproject" in
  c1 <- (if exists_ env projectFilePath then
           match readFile env projectFilePath with
           | None => Throws
           | Some content =>
               let projectName := Js.trim content in
               Returns (with_ticketsPath (join cwd ".tickets")
                       (with_workspacePath cwd
                       (with_currentProject projectName context)))
           end
         else
           let result := executeCommand env "git rev-parse --show-toplevel" in
           if Js.nonempty result then
             let repoPath := Js.trim result in
             let repoName := basename_or_general repoPath in
             Returns (with_ticketsPath (join repoPath ".tickets")
                     (with_workspacePath repoPath
                     (with_currentProject repoName context)))
           else
             let dirName := basename_or_general cwd in
             Returns (with_workspacePath cwd
                     (with_currentProject dirName context))) ;;
  let c2 :=
    let taskStatePath :=
      join (or_else (workspacePath c1) cwd) ".task-state.json" in
    if exists_ env taskStatePath then
      match readFile env taskStatePath with
      | None => c1
      | Some text =>
          match parseTaskState text with
          | None => c1
          | Some taskState =>
              if truthy (focus_ticket taskState)
              then with_currentTicket (get (focus_ticket taskState)) c1
              else c1
          end
      end
    else c1 in
  let c3 :=
    let branch := executeCommand env "git branch --show-current" in
    if Js.nonempty branch && ticket_code branch
    then with_currentTicket (Js.trim branch) c2
    else c2 in
  Returns c3.

(** [async getTicketTasks(ticket)] *)
Definition getTicketTasks (env : Env) (context : ProjectContext)
  (ticket : string) : result (list string) :=
  if negb (truthy (ticketsPath context)) then Returns []
  else
    let ticketPath := join (get (ticketsPath context)) ticket in
    let checklistPath := join ticketPath "mr-checklist.md" in
    tasks1 <- (if exists_ env checklistPath then
                 match readFile env checklistPath with
                 | None => Throws
                 | Some content =>
                     Returns (checklist_tasks (Js.split Js.LF content))
                 end
               else Returns []) ;;
    let contextPath := join ticketPath "context.md" in
    if exists_ env contextPath then
      match readFile env contextPath with
      | None => Throws
      | Some content => Returns (tasks1 ++ todo_tasks content)%list
      end
    else Returns tasks1.

End ContextManager.

(** [getContext()] *)
Definition getContext (context : ProjectContext) : ProjectContext := context.

(** [setCurrentTicket(ticket)]: the new value of the private field. *)
Definition setCurrentTicket (ticket : string) (context : ProjectContext)
  : ProjectContext :=
  with_currentTicket ticket context.

(** [formatTaskwarriorProject()] *)
Definition formatTaskwarriorProject (context : ProjectContext) : string :=
  if truthy (currentTicket context) then get (currentTicket context)
  else if truthy (currentProject context) then get (currentProject context)
  else "general".

(** [enhanceTaskDescription(description)] *)
Definition enhanceTaskDescription (context : ProjectContext)
  (description : string) : string :=
  let parts := [description] in
  let parts :=
    if truthy (currentTicket context) then
      if negb (Js.includes (get (currentTicket context)) description)
      then (parts ++ [("+" ++ get (currentTicket context))%string])%list
      else parts
    else parts in
  let parts :=
    if truthy (currentProject context)
       && negb (Js.includes "project:" description)
    then (parts ++ [("project:" ++ get (currentProject context))%string])%list
    else parts in
  Js.join " " parts.

(** ** src/index.ts: [TaskwarriorBridge] *)

(** [TASK_PATTERNS]: each key with the alternatives of its pattern
    [/^(w1|w2|...)/i], in the order of declaration, which is the order
    [Object.entries] enumerates. *)
Definition TASK_PATTERNS : list (string * list string) :=
  [ ("add", ["add"; "create"; "new"; "make"; "todo"; "task"]);
    ("list", ["list"; "show"; "what"; "tasks"; "todos"]);
    ("complete", ["done"; "complete"; "finish"; "mark"; "check"]);
    ("modify", ["modify"; "change"; "update"; "edit"]);
    ("delete", ["delete"; "remove"; "rm"]);
    ("prioritize", ["prioritize"; "priority"; "urgent"; "important"]);
    ("context", ["where"; "context"; "project"; "current"]);
    ("next", ["next"; "now"; "focus"; "immediate"]) ].

(** A pattern [/^(w1|w2|...)/i] applied at the start of the input: the text
    that follows the match, which is what [input.replace(pattern, '')]
    leaves. *)
Definition strip_trigger (alts : list string) (input : string)
  : option string :=
  Js.alt true alts input (fun rest => Some rest).

(** [pattern.test(input)] *)
Definition test (alts : list string) (input : string) : bool :=
  match strip_trigger alts input with
  | Some _ => true
  | None => false
  end.

(** The loop [for (const [key, pattern] of Object.entries(TASK_PATTERNS))],
    started from [action = 'list'] and [args = input]. *)
Fixpoint classify_loop (patterns : list (string * list string))
  (input : string) : string * string :=
  match patterns with
  | [] => ("list", input)
  | (key, alts) :: rest =>
      match strip_trigger alts input with
      | Some residual => (key, Js.trim residual)
      | None => classify_loop rest input
      end
  end.

Definition classify (input : string) : string * string :=
  classify_loop TASK_PATTERNS input.

(** [args.match(/project[: ](\S+)/i)], the value of [projectMatch[1]]. *)
Definition projectMatch (args : string) : option string :=
  Js.search (fun s =>
    Js.lit true "project" s (fun s1 =>
    Js.one (fun c => Ascii.eqb c ":" || Ascii.eqb c " ") s1 (fun s2 =>
    Js.plus Js.non_space s2 (fun s3 => Some (Js.between s2 s3))))) args.

(** [args.match(/\d+/)], the value of [taskIdMatch[0]]. *)
Definition taskIdMatch (args : string) : option string :=
  Js.search (fun s =>
    Js.plus Js.is_digit s (fun s1 => Some (Js.between s s1))) args.

(** [const projectFilter = ...] *)
Definition projectFilter (context : ProjectContext) : string :=
  if truthy (currentProject context)
  then "project:" ++ get (currentProject context)
  else EmptyString.

(** The [switch (action)] of [parseNaturalLanguage]: the returned
    [{ action, args }]. *)
Definition synthesize (action args : string) (context : ProjectContext)
  : string * string :=
  let projectFilter := projectFilter context in
  if action =? "add" then ("add", args)
  else if action =? "list" then
    let listArgs :=
      if Js.includes "today" args || Js.includes "now" args then
        Js.trim ("due:today " ++ projectFilter)
      else if Js.includes "urgent" args || Js.includes "high" args then
        Js.trim ("priority:H " ++ projectFilter)
      else if Js.includes "project" args then
        match projectMatch args with
        | Some g => "project:" ++ g
        | None => EmptyString
        end
      else projectFilter in
    ("list", listArgs)
  else if action =? "complete" then
    match taskIdMatch args with
    | Some id => ("done", id)
    | None => ("done", "1")
    end
  else if action =? "next" then ("next", projectFilter)
  else if action =? "context" then
    if Js.nonempty args then ("context", args) else ("context", "list")
  else (action, args).

Section Bridge.

Variable join : string -> string -> string.
Variable parseTaskState : string -> option TaskState.

(** [async parseNaturalLanguage(input)], with the context manager's field
    [context] before the call. *)
Definition parseNaturalLanguage (env : Env) (context : ProjectContext)
  (input : string) : result (string * string) :=
  let '(action, args) := classify input in
  context' <- detectContext join parseTaskState env context ;;
  Returns (synthesize action args context').

End Bridge.

(** [/^\s*ID\s+/] *)
Definition header_line (line : string) : bool :=
  match Js.star Js.is_space line (fun s1 =>
        Js.lit false "ID" s1 (fun s2 =>
        Js.plus Js.is_space s2 (fun _ => Some tt))) with
  | Some _ => true
  | None => false
  end.

(** [/^\s*\d+\s+/] *)
Definition row_line (line : string) : bool :=
  match Js.star Js.is_space line (fun s1 =>
        Js.plus Js.is_digit s1 (fun s2 =>
        Js.plus Js.is_space s2 (fun _ => Some tt))) with
  | Some _ => true
  | None => false
  end.

(** The [for (const line of lines)] loop of [formatOutput]: the rows pushed
    to [tasks] from the remaining lines, [inTaskList] being the flag on
    entry. *)
Fixpoint collect_tasks (lines : list string) (inTaskList : bool)
  : list string :=
  match lines with
  | [] => []
  | line :: rest =>
      if header_line line then collect_tasks rest true
      else
        let pushed :=
          if inTaskList && row_line line then [Js.trim line] else [] in
        if Js.includes "tasks" line && negb inTaskList then pushed
        else (pushed ++ collect_tasks rest inTaskList)%list
  end.

(** [formatOutput(output, action)] *)
Definition formatOutput (output action : string) : string :=
  let lines :=
    filter (fun line => Js.nonempty (Js.trim line)) (Js.split Js.LF output) in
  if (action =? "list") || (action =? "next") then
    let tasks := collect_tasks lines false in
    if Nat.ltb 0 (List.length tasks)
    then "Current tasks:" ++ Js.nl ++ Js.join Js.nl tasks
    else output
  else output.

(** ** Notions used to state the properties *)

(** Every character of [s] is in the class [p]. *)
Fixpoint all_chars (p : ascii -> bool) (s : string) : bool :=
  match s with
  | EmptyString => true
  | String c s' => p c && all_chars p s'
  end.

(** The longest prefix of [s] made of characters of [p], and what follows. *)
Fixpoint take_while (p : ascii -> bool) (s : string) : string :=
  match s with
  | EmptyString => EmptyString
  | String c s' => if p c then String c (take_while p s') else EmptyString
  end.

Fixpoint drop_while (p : ascii -> bool) (s : string) : string :=
  match s with
  | EmptyString => EmptyString
  | String c s' => if p c then drop_while p s' else s
  end.

Definition non_digit (c : ascii) : bool := negb (Js.is_digit c).

(** [s] is empty or begins with a character outside [p]. *)
Definition stops (p : ascii -> bool) (s : string) : Prop :=
  match s with
  | EmptyString => True
  | String c _ => p c = false
  end.

(** [run] is the first maximal digit run of [text]: digits only, at least
    one, nothing but non-digits before it, and no digit right after it. *)
Definition first_digit_run (text run : string) : Prop :=
  exists before after,
    text = before ++ run ++ after /\
    all_chars non_digit before = true /\
    run <> EmptyString /\
    all_chars Js.is_digit run = true /\
    stops Js.is_digit after.

(** The lines [formatOutput] loops over, and the rows its loop collects. *)
Definition output_lines (output : string) : list string :=
  filter (fun line => Js.nonempty (Js.trim line)) (Js.split Js.LF output).

Definition task_rows (output : string) : list string :=
  collect_tasks (output_lines output) false.

(** The pattern declared at position [i] of [TASK_PATTERNS]. *)
Definition declared_at (i : nat) (key : string) (alts : list string) : Prop :=
  nth_error TASK_PATTERNS i = Some (key, alts).

(** The text that follows the word [w], compared under the [i] flag, at the
    start of [s]. *)
Definition strip_ci (w s : string) : option string :=
  Js.lit true w s (fun rest => Some rest).

(** The notes file read line by line, as the specification words it: a
    line matches the TODO marker when [/TODO[:\s]+(.+)/i] matches inside
    it, and then yields the trimmed text of the group. *)
Definition todo_line (line : string) : option string :=
  match Js.search todo_at line with
  | Some (text, _) => Some (Js.trim text)
  | None => None
  end.

Fixpoint todo_lines (lines : list string) : list string :=
  match lines with
  | [] => []
  | line :: rest =>
      match todo_line line with
      | Some text => text :: todo_lines rest
      | None => todo_lines rest
      end
  end.

(** A line is open-ended when it ends with a marker that has no text: the
    word TODO, compared under the [i] flag, followed by nothing but colons
    and white space up to the end of the line.  Such a marker finds its
    text on a later line. *)
Fixpoint open_ended (line : string) : bool :=
  match strip_ci "TODO" line with
  | Some rest => all_chars colon_or_space rest
  | None => false
  end
  || match line with
     | EmptyString => false
     | String _ line' => open_ended line'
     end.

(** The text of a marker that starts a line and has its text on the line:
    what follows the word TODO and a non-empty run of colons and white
    space. *)
Definition marker_text (line : string) : option string :=
  match strip_ci "TODO" line with
  | Some rest =>
      if Js.nonempty (take_while colon_or_space rest)
      then Some (drop_while colon_or_space rest)
      else None
  | None => None
  end.

(** What may follow a line: nothing, or a line feed and further lines. *)
Definition line_end (tail : string) : Prop :=
  tail = EmptyString \/ exists rest, tail = String Js.LF rest.

(** A file of the ticket directory as the environment shows it: [Some text]
    when it is there and reads as [text], [None] when it is not there. *)
Definition file_is (env : Env) (path : string) (file : option string)
  : Prop :=
  match file with
  | Some text => access env path = true /\ readFile env path = Some text
  | None => access env path = false
  end.

(** The tasks of the checklist file: one per unchecked-checkbox line. *)
Definition checklist_items (file : option string) : list string :=
  match file with
  | Some text => checklist_tasks (Js.split Js.LF text)
  | None => []
  end.

(** The tasks of the notes file as the code finds them, and as a reading
    line by line finds them. *)
Definition note_items (file : option string) : list string :=
  match file with
  | Some text => todo_tasks text
  | None => []
  end.

Definition note_items_by_line (file : option string) : list string :=
  match file with
  | Some text => todo_lines (Js.split Js.LF text)
  | None => []
  end.

(** No line but the last is open-ended. *)
Fixpoint closed_lines (lines : list string) : bool :=
  match lines with
  | [] => true
  | line :: rest =>
      match rest with
      | [] => true
      | _ :: _ => negb (open_ended line) && closed_lines rest
      end
  end.

(** The only line terminators of the notes are line feeds: every character
    is a line feed or one that [.] matches (so no carriage return and, on
    wider code units, no U+2028 or U+2029 either); and none of their lines
    but the last is open-ended. *)
Definition line_local (notes : string) : bool :=
  all_chars (fun c => Js.dot c || Ascii.eqb c Js.LF) notes
  && closed_lines (Js.split Js.LF notes).

(** The residual text of a [list] request carries none of the cues
    [today], [now], [urgent], [high], [project]. *)
Definition no_cue (args : string) : bool :=
  negb (Js.includes "today" args || Js.includes "now" args
        || Js.includes "urgent" args || Js.includes "high" args
        || Js.includes "project" args).



Section TicketSources.

Variable join : string -> string -> string.
Variable parseTaskState : string -> option TaskState.

(** The override marker file of the working directory. *)
Definition marker (env : Env) : string := join (cwd env) ".taskproject".

(** The marker file is absent, or it can be read. *)
Definition marker_readable (env : Env) : Prop :=
  access env (marker env) = false \/
  exists content, readFile env (marker env) = Some content.


(** Source (a) of the ticket: the field [currentFocus.ticket] of the state
    file under the workspace root, when the file is there, can be read and
    parsed, and the field holds a non-empty string. *)
Definition state_file_ticket (env : Env) (root : string) : option string :=
  let path := join root ".task-state.json" in
  if access env path then
    match readFile env path with
    | Some text =>
        match parseTaskState text with
        | Some taskState =>
            if truthy (focus_ticket taskState) then focus_ticket taskState
            else None
        | None => None
        end
    | None => None
    end
  else None.

(** Source (b) of the ticket: the name of the current branch, when the
    version-control client prints one that begins with a ticket code. *)
Definition branch_ticket (env : Env) : option string :=
  let branch := executeCommand env "git branch --show-current" in
  if Js.nonempty branch && ticket_code branch then Some branch else None.

End TicketSources.

(** ** Sample environments *)

(** [path.join] on two segments that need no normalisation. *)
Definition posix_join (a b : string) : string := a ++ "/" ++ b.

(** A reader of state files that finds no file well-formed. *)
Definition no_state (text : string) : option TaskState := None.

(** A directory whose entry [.taskproject] exists and cannot be read (a
    directory of that name, or a file without read permission). *)
Definition unreadable_marker_env : Env :=
  mkEnv "/work/app"
        (fun path => path =? "/work/app/.taskproject")
        (fun _ => None)
        (fun _ => None).

(** A directory whose marker file holds one blank line. *)
Definition blank_marker_env : Env :=
  mkEnv "/work/app"
        (fun path => path =? "/work/app/.taskproject")
        (fun path => if path =? "/work/app/.taskproject"
                     then Some (" " ++ Js.nl) else None)
        (fun _ => None).

Definition present (file : option string) : bool :=
  match file with Some _ => true | None => false end.

(** A workspace [/w] whose ticket [DRX-1] has the given checklist and
    notes files; [None] is a file that does not exist. *)
Definition ticket_env (checklist notes : option string) : Env :=
  mkEnv "/w"
        (fun path =>
           ((path =? "/w/.tickets/DRX-1/mr-checklist.md") && present checklist)
           || ((path =? "/w/.tickets/DRX-1/context.md") && present notes))
        (fun path =>
           if path =? "/w/.tickets/DRX-1/mr-checklist.md" then checklist
           else if path =? "/w/.tickets/DRX-1/context.md" then notes
           else None)
        (fun _ => None).

Definition ticket_context : ProjectContext :=
  mkContext None (Some "w") (Some "/w") (Some "/w/.tickets").

(** The workspace [/w] where the notes file of ticket [DRX-1] exists but
    cannot be read, and its checklist file does not exist. *)
Definition unreadable_notes_env : Env :=
  mkEnv "/w"
        (fun path => path =? "/w/.tickets/DRX-1/context.md")
        (fun _ => None)
        (fun _ => None).

(** The double-quote character. *)
Definition quote : string := String (ascii_of_nat 34) EmptyString.

(** The text of a state file naming the ticket [DRX-1], and a reader that
    knows this one text. *)
Definition sample_state_text : string :=
  "{" ++ quote ++ "currentFocus" ++ quote ++ ":{" ++ quote ++ "ticket"
      ++ quote ++ ":" ++ quote ++ "DRX-1" ++ quote ++ "}}".

Definition sample_parse (text : string) : option TaskState :=
  if text =? sample_state_text
  then Some (mkTaskState (Some (mkFocus (Some "DRX-1"))))
  else None.

(** A checkout of the repository [/home/u/shop] on the branch [branch],
    with the state file above when [with_state] is set. *)
Definition repo_env (branch : string) (with_state : bool) : Env :=
  mkEnv "/home/u/shop/src"
        (fun path => with_state && (path =? "/home/u/shop/.task-state.json"))
        (fun path => if with_state && (path =? "/home/u/shop/.task-state.json")
                     then Some sample_state_text else None)
        (fun command =>
           if command =? "git rev-parse --show-toplevel"
           then Some ("/home/u/shop" ++ Js.nl)
           else if command =? "git branch --show-current"
           then Some (branch ++ Js.nl)
           else None).

(** ** Further functions of the sources *)

(** An entry of [readdir(path, { withFileTypes: true })]. *)
Record Dirent : Type := mkDirent { name : string; isDirectory : bool }.

Section Tickets.

(** [fs.readdir] with file types: the entries in the order of enumeration,
    [None] when the call rejects. *)
Variable readdir : string -> option (list Dirent).

(** [async listTickets()] of [src/context.ts] *)
Definition listTickets (context : ProjectContext) : list string :=
  if negb (truthy (ticketsPath context)) then []
  else
    match readdir (get (ticketsPath context)) with
    | Some entries =>
        map name
          (filter (fun e => isDirectory e && Js.startsWith "DRX-" (name e))
             entries)
    | None => []
    end.

End Tickets.

Section Handlers.

Variable join : string -> string -> string.

(** [execAsync] on a command line of the external tool: the standard
    output, or the message of the error it rejects with. *)
Variable execTask : string -> string + string.

(** The marks that open the lines of the report of [task_ticket_sync]. *)
Variable added_mark failed_mark : string.




End Handlers.


(** ** Further notions *)

(** The text with its capital letters A to Z made small. *)
Fixpoint to_lower (s : string) : string :=
  match s with
  | EmptyString => EmptyString
  | String c s' => String (Js.lower c) (to_lower s')
  end.

(** The verbs [parseNaturalLanguage] can hand to the external tool. *)
Definition verbs : list string :=
  ["add"; "list"; "done"; "modify"; "delete"; "prioritize"; "context"; "next"].

Definition not_slash (c : ascii) : bool := negb (Ascii.eqb c "/").

(** A task text as the checklist and the notes yield it: free of line
    terminators. *)
Definition one_line (text : string) : Prop := all_chars Js.dot text = true.

(* ===================================================================== *)
(** * Part II: properties                                                 *)
(* ===================================================================== *)

(** ** Strings *)

Lemma append_empty_r (s : string) : s ++ EmptyString = s.
Proof. induction s as [|c s IH]; simpl; [reflexivity | now rewrite IH]. Qed.

Lemma append_assoc (a b c : string) : (a ++ b) ++ c = a ++ (b ++ c).
Proof. induction a as [|x a IH]; simpl; [reflexivity | now rewrite IH]. Qed.

Lemma length_append (a b : string) :
  String.length (a ++ b) = String.length a + String.length b.
Proof. induction a as [|x a IH]; simpl; [reflexivity | now rewrite IH]. Qed.

Lemma substring_prefix (a b : string) :
  substring 0 (String.length a) (a ++ b) = a.
Proof. induction a as [|x a IH]; simpl; [now destruct b | now rewrite IH]. Qed.

Lemma between_append (a b : string) : Js.between (a ++ b) b = a.
Proof.
  unfold Js.between. rewrite length_append.
  replace (String.length a + String.length b - String.length b)
    with (String.length a) by lia.
  apply substring_prefix.
Qed.

Lemma take_drop_while (p : ascii -> bool) (s : string) :
  s = take_while p s ++ drop_while p s.
Proof.
  induction s as [|c s IH]; simpl; [reflexivity|].
  destruct (p c); simpl; [now rewrite <- IH | reflexivity].
Qed.

Lemma drop_while_stops (p : ascii -> bool) (s : string) :
  stops p (drop_while p s).
Proof.
  induction s as [|c s IH]; simpl; [exact I|].
  destruct (p c) eqn:E; simpl; [exact IH | exact E].
Qed.

Lemma take_while_all (p : ascii -> bool) (s : string) :
  all_chars p (take_while p s) = true.
Proof.
  induction s as [|c s IH]; simpl; [reflexivity|].
  destruct (p c) eqn:E; simpl; [now rewrite E | reflexivity].
Qed.

Lemma take_while_app (p : ascii -> bool) (a b : string) :
  all_chars p a = true -> stops p b -> take_while p (a ++ b) = a.
Proof.
  induction a as [|c a IH]; simpl; intros Ha Hb.
  - destruct b as [|d b]; simpl in *; [reflexivity | now rewrite Hb].
  - apply andb_true_iff in Ha as [-> Ha]. now rewrite IH.
Qed.

Lemma drop_while_app (p : ascii -> bool) (a b : string) :
  all_chars p a = true -> stops p b -> drop_while p (a ++ b) = b.
Proof.
  induction a as [|c a IH]; simpl; intros Ha Hb.
  - destruct b as [|d b]; simpl in *; [reflexivity | now rewrite Hb].
  - apply andb_true_iff in Ha as [-> Ha]. now apply IH.
Qed.

(** ** The matcher *)

(** A greedy [p+] whose continuation accepts the longest run stops there. *)
Lemma plus_longest {A : Type} (p : ascii -> bool) (s : string)
  (k : string -> option A) (r : A) :
  take_while p s <> EmptyString ->
  k (drop_while p s) = Some r ->
  Js.plus p s k = Some r.
Proof.
  induction s as [|c s IH]; simpl; intros Hne Hk; [congruence|].
  destruct (p c) eqn:E; [|congruence].
  destruct s as [|d s]; simpl in *; [exact Hk|].
  destruct (p d) eqn:E'.
  - rewrite IH; [reflexivity | discriminate | exact Hk].
  - exact Hk.
Qed.

Lemma plus_none_head {A : Type} (p : ascii -> bool) (s : string)
  (k : string -> option A) :
  stops p s -> Js.plus p s k = None.
Proof. destruct s as [|c s]; simpl; [reflexivity | now intros ->]. Qed.

Lemma search_here {A : Type} (m : string -> option A) (s : string) (r : A) :
  m s = Some r -> Js.search m s = Some r.
Proof. intros H. destruct s; simpl; now rewrite H. Qed.

Lemma search_skip {A : Type} (m : string -> option A) (c : ascii)
  (s : string) :
  m (String c s) = None -> Js.search m (String c s) = Js.search m s.
Proof. intros H. simpl. now rewrite H. Qed.

(** ** Intent classification *)

Lemma classify_loop_find (patterns : list (string * list string))
  (q : string) :
  fst (classify_loop patterns q) =
  match find (fun p => test (snd p) q) patterns with
  | Some p => fst p
  | None => "list"
  end.
Proof.
  induction patterns as [|[key alts] rest IH]; simpl; [reflexivity|].
  unfold test. destruct (strip_trigger alts q); simpl; [reflexivity|].
  exact IH.
Qed.

Lemma classify_loop_default (patterns : list (string * list string))
  (q : string) :
  (forall key alts, In (key, alts) patterns -> test alts q = false) ->
  classify_loop patterns q = ("list", q).
Proof.
  induction patterns as [|[key alts] rest IH]; simpl; intros H;
    [reflexivity|].
  assert (Hk : test alts q = false) by (apply (H key); now left).
  unfold test in Hk. destruct (strip_trigger alts q); [discriminate|].
  apply IH. intros k a Hin. apply (H k). now right.
Qed.

(** The first element satisfying [f] sits at or before any element that
    satisfies it. *)
Lemma find_first {A : Type} (f : A -> bool) (l : list A) (i : nat) (x : A) :
  nth_error l i = Some x -> f x = true ->
  exists i0 x0,
    i0 <= i /\ nth_error l i0 = Some x0 /\ f x0 = true /\
    find f l = Some x0 /\
    forall i' x', i' < i0 -> nth_error l i' = Some x' -> f x' = false.
Proof.
  revert i. induction l as [|y l IH]; intros i Hn Hf.
  - destruct i; discriminate.
  - simpl. destruct (f y) eqn:Ey.
    + exists 0, y. repeat split; try lia; auto; intros; lia.
    + destruct i as [|i]; simpl in Hn.
      * injection Hn as ->. congruence.
      * destruct (IH i Hn Hf) as (i0 & x0 & Hle & Hn0 & Hf0 & Hfind & Hmin).
        exists (S i0), x0. repeat split; try lia; auto.
        intros i' x' Hlt Hn'. destruct i' as [|i']; simpl in Hn'.
        -- injection Hn' as <-. exact Ey.
        -- apply (Hmin i'); [lia | exact Hn'].
Qed.

Lemma TASK_PATTERNS_keys_distinct : NoDup (map fst TASK_PATTERNS).
Proof.
  simpl. repeat constructor; simpl; intuition discriminate.
Qed.

Lemma declared_keys_differ (i j : nat) (ki kj : string)
  (ai aj : list string) :
  declared_at i ki ai -> declared_at j kj aj -> i < j -> ki <> kj.
Proof.
  unfold declared_at. intros Hi Hj Hlt Heq. subst kj.
  assert (Hi' : nth_error (map fst TASK_PATTERNS) i = Some ki)
    by (rewrite nth_error_map, Hi; reflexivity).
  assert (Hj' : nth_error (map fst TASK_PATTERNS) j = Some ki)
    by (rewrite nth_error_map, Hj; reflexivity).
  assert (Hlen : i < List.length (map fst TASK_PATTERNS))
    by (apply nth_error_Some; congruence).
  pose proof (proj1 (NoDup_nth_error (map fst TASK_PATTERNS))
                TASK_PATTERNS_keys_distinct i j Hlen) as H.
  rewrite Hi', Hj' in H. specialize (H eq_refl). lia.
Qed.

(** C3.  Every query is classified to exactly one intent, the key of the
    first pattern, in the order of declaration, that matches the start of
    the query (and [list] when none does); so when two patterns declared at
    positions [i < j] both match, the later one never wins, and the earlier
    one wins unless a pattern declared before it matches as well. *)
Theorem classify_first_declared_wins (q : string) :
  (exists! intent, fst (classify q) = intent) /\
  fst (classify q) =
    match find (fun p => test (snd p) q) TASK_PATTERNS with
    | Some p => fst p
    | None => "list"
    end /\
  forall i ki ai j kj aj,
    declared_at i ki ai -> declared_at j kj aj -> i < j ->
    test ai q = true -> test aj q = true ->
    fst (classify q) <> kj /\
    ((forall i' k' a', i' < i -> declared_at i' k' a' -> test a' q = false) ->
     fst (classify q) = ki).
Proof.
  split; [|split].
  - exists (fst (classify q)). split; [reflexivity | now intros ? <-].
  - apply classify_loop_find.
  - intros i ki ai j kj aj Hi Hj Hlt Hti Htj.
    destruct (find_first (fun p => test (snd p) q) TASK_PATTERNS i (ki, ai)
                Hi Hti) as (i0 & [k0 a0] & Hle & Hn0 & Hf0 & Hfind & Hmin).
    unfold classify. rewrite classify_loop_find, Hfind. simpl. split.
    + apply (declared_keys_differ i0 j k0 kj a0 aj); auto. lia.
    + intros Hnone. destruct (Nat.eq_dec i0 i) as [->|Hne].
      * unfold declared_at in Hi. congruence.
      * simpl in Hf0. rewrite (Hnone i0 k0 a0) in Hf0;
          [discriminate | lia | exact Hn0].
Qed.

(** The query [tasks] is matched by [task] of the pattern of [add] and by
    [tasks] of the pattern of [list]; [add], declared first, wins. *)
Lemma classify_first_declared_wins_witness :
  fst (classify "tasks") <> "list" /\ fst (classify "tasks") = "add".
Proof.
  destruct (classify_first_declared_wins "tasks") as (_ & _ & H).
  destruct (H 0 "add" ["add"; "create"; "new"; "make"; "todo"; "task"]
              1 "list" ["list"; "show"; "what"; "tasks"; "todos"]
              eq_refl eq_refl (Nat.lt_0_1) eq_refl eq_refl) as [Hne Hfirst].
  split; [exact Hne|].
  apply Hfirst. intros i' k' a' Hlt. inversion Hlt.
Defined.

(** C4.  A query that none of the declared patterns matches is classified
    as [list], and its residual text is the query itself, unchanged. *)
Theorem classify_default (q : string) :
  (forall key alts, In (key, alts) TASK_PATTERNS -> test alts q = false) ->
  classify q = ("list", q).
Proof. apply classify_loop_default. Qed.

Lemma classify_default_witness :
  classify "  hello world " = ("list", "  hello world ").
Proof.
  apply classify_default.
  intros key alts Hin. simpl in Hin.
  repeat (destruct Hin as [Hin|Hin];
          [injection Hin as <- <-; reflexivity|]).
  contradiction.
Defined.

(** ** Command synthesis: the [complete] intent *)

Lemma taskIdMatch_no_digit (args : string) :
  all_chars non_digit args = true -> taskIdMatch args = None.
Proof.
  unfold taskIdMatch. induction args as [|c s IH]; intros H;
    [reflexivity|].
  simpl in H. apply andb_true_iff in H as [Hc Hs]. unfold non_digit in Hc.
  apply negb_true_iff in Hc.
  rewrite search_skip; [now apply IH | now apply plus_none_head].
Qed.

Lemma taskIdMatch_first_run (args run : string) :
  first_digit_run args run -> taskIdMatch args = Some run.
Proof.
  intros (before & after & -> & Hb & Hne & Hr & Ha).
  unfold taskIdMatch. induction before as [|c s IH].
  - apply search_here. change (EmptyString ++ run ++ after) with (run ++ after).
    apply plus_longest.
    + rewrite take_while_app; assumption.
    + rewrite drop_while_app by assumption.
      now rewrite between_append.
  - simpl in Hb. apply andb_true_iff in Hb as [Hc Hs].
    unfold non_digit in Hc. apply negb_true_iff in Hc.
    change (String c s ++ run ++ after) with (String c (s ++ run ++ after)).
    rewrite search_skip; [now apply IH | now apply plus_none_head].
Qed.

(** A text that holds a digit has a first maximal digit run. *)
Lemma first_digit_run_exists (args : string) :
  all_chars non_digit args = false -> exists run, first_digit_run args run.
Proof.
  induction args as [|c s IH]; simpl; [discriminate|].
  unfold non_digit at 1. destruct (Js.is_digit c) eqn:Ec; simpl.
  - intros _. exists (take_while Js.is_digit (String c s)).
    exists EmptyString, (drop_while Js.is_digit (String c s)).
    repeat split.
    + apply take_drop_while.
    + simpl. rewrite Ec. discriminate.
    + apply take_while_all.
    + apply drop_while_stops.
  - intros H. destruct (IH H) as (run & before & after & -> & Hb & Hr).
    exists run, (String c before), after. repeat split; try apply Hr.
    simpl. unfold non_digit at 1. now rewrite Ec.
Qed.

(** C5.  For the [complete] intent the verb is always [done]; the argument
    is the literal [1] when the residual text holds no digit, and the first
    maximal digit run of the residual text when it holds one, which it does
    as soon as it holds a digit. *)
Theorem complete_synthesis (args : string) (context : ProjectContext) :
  fst (synthesize "complete" args context) = "done" /\
  (all_chars non_digit args = true ->
   synthesize "complete" args context = ("done", "1")) /\
  (forall run, first_digit_run args run ->
   synthesize "complete" args context = ("done", run)) /\
  (all_chars non_digit args = false ->
   exists run, first_digit_run args run).
Proof.
  unfold synthesize. simpl. repeat split.
  - now destruct (taskIdMatch args).
  - intros H. now rewrite taskIdMatch_no_digit.
  - intros run H. now rewrite (taskIdMatch_first_run _ _ H).
  - apply first_digit_run_exists.
Qed.

Lemma complete_synthesis_witness :
  synthesize "complete" "task as done" emptyContext = ("done", "1") /\
  synthesize "complete" "task 52 as 7 done" emptyContext = ("done", "52").
Proof.
  split.
  - apply (proj1 (proj2 (complete_synthesis "task as done" emptyContext))).
    reflexivity.
  - apply (proj1 (proj2 (proj2 (complete_synthesis "task 52 as 7 done"
                                  emptyContext)))).
    exists "task ", " as 7 done".
    repeat split; try reflexivity. discriminate.
Defined.

(** ** Substrings *)

Lemma startsWith_append (w b : string) : Js.startsWith w (w ++ b) = true.
Proof.
  induction w as [|c w IH]; simpl; [reflexivity|].
  now rewrite Ascii.eqb_refl.
Qed.

Lemma startsWith_weaken (w a b : string) :
  Js.startsWith w a = true -> Js.startsWith w (a ++ b) = true.
Proof.
  revert a. induction w as [|c w IH]; intros a H; [reflexivity|].
  destruct a as [|d a]; simpl in *; [discriminate|].
  apply andb_true_iff in H as [-> H]. now apply IH.
Qed.

Lemma includes_prefix (w b : string) : Js.includes w (w ++ b) = true.
Proof.
  destruct (w ++ b) eqn:E; simpl; rewrite <- E, startsWith_append;
    reflexivity.
Qed.

Lemma includes_append_l (w a b : string) :
  Js.includes w a = true -> Js.includes w (a ++ b) = true.
Proof.
  induction a as [|c a IH]; simpl; intros H.
  - rewrite orb_false_r in H. destruct w; [|discriminate].
    now destruct b.
  - apply orb_true_iff in H as [H|H].
    + change (String c (a ++ b)) with (String c a ++ b).
      now rewrite startsWith_weaken.
    + rewrite IH by assumption. apply orb_true_r.
Qed.

Lemma includes_append_r (w a b : string) :
  Js.includes w b = true -> Js.includes w (a ++ b) = true.
Proof.
  induction a as [|c a IH]; simpl; intros H; [exact H|].
  rewrite IH by assumption. apply orb_true_r.
Qed.

(** ** Task descriptions *)

Lemma includes_infix (w a b : string) : Js.includes w (a ++ w ++ b) = true.
Proof. apply includes_append_r, includes_prefix. Qed.

Lemma includes_suffix (w a : string) : Js.includes w (a ++ w) = true.
Proof.
  rewrite <- (append_empty_r w) at 2. apply includes_infix.
Qed.

(** The enhanced description is the description followed by what was
    pushed to [parts], each part after a blank. *)
Lemma enhance_shape (context : ProjectContext) (d : string) :
  enhanceTaskDescription context d =
  d ++ (if truthy (currentTicket context)
           && negb (Js.includes (get (currentTicket context)) d)
        then " +" ++ get (currentTicket context) else EmptyString)
    ++ (if truthy (currentProject context)
           && negb (Js.includes "project:" d)
        then " project:" ++ get (currentProject context) else EmptyString).
Proof.
  unfold enhanceTaskDescription.
  destruct (truthy (currentTicket context));
    destruct (Js.includes (get (currentTicket context)) d);
    destruct (truthy (currentProject context) &&
              negb (Js.includes "project:" d));
    cbn [Js.join String.concat app negb andb];
    rewrite ?append_empty_r; try reflexivity.
  all: now rewrite ?append_assoc.
Qed.

Lemma enhance_keeps_ticket (context : ProjectContext) (d : string) :
  truthy (currentTicket context) = true ->
  Js.includes (get (currentTicket context))
    (enhanceTaskDescription context d) = true.
Proof.
  intros Ht. rewrite enhance_shape, Ht.
  destruct (Js.includes (get (currentTicket context)) d) eqn:Ei;
    cbn [negb andb].
  - now apply includes_append_l.
  - rewrite <- append_assoc. apply includes_append_l.
    rewrite <- append_assoc. apply includes_suffix.
Qed.

Lemma enhance_keeps_project (context : ProjectContext) (d : string) :
  truthy (currentProject context) = true ->
  Js.includes "project:" (enhanceTaskDescription context d) = true.
Proof.
  intros Hp. rewrite enhance_shape, Hp.
  destruct (Js.includes "project:" d) eqn:Ei; cbn [negb andb].
  - now apply includes_append_l.
  - apply includes_append_r, includes_append_r.
    apply (includes_infix "project:" " ").
Qed.

Lemma enhance_nothing_to_add (context : ProjectContext) (d : string) :
  (truthy (currentTicket context) = true ->
   Js.includes (get (currentTicket context)) d = true) ->
  (truthy (currentProject context) = true ->
   Js.includes "project:" d = true) ->
  enhanceTaskDescription context d = d.
Proof.
  intros Ht Hp. unfold enhanceTaskDescription.
  destruct (truthy (currentTicket context)).
  - rewrite Ht by reflexivity. simpl.
    destruct (truthy (currentProject context)); [|reflexivity].
    now rewrite Hp.
  - destruct (truthy (currentProject context)); [|reflexivity].
    now rewrite Hp.
Qed.

(** C9.  [enhanceTaskDescription] is idempotent: for every description and
    every context, enhancing an enhanced description changes nothing. *)
Theorem enhanceTaskDescription_idempotent (context : ProjectContext)
  (description : string) :
  enhanceTaskDescription context
    (enhanceTaskDescription context description) =
  enhanceTaskDescription context description.
Proof.
  apply enhance_nothing_to_add.
  - apply enhance_keeps_ticket.
  - apply enhance_keeps_project.
Qed.


(** ** Output normalisation *)

(** Every collected row is the trimmed text of a line that begins with a
    number and comes after a header line. *)
Lemma collect_tasks_sound (lines : list string) (inTaskList : bool)
  (row : string) :
  In row (collect_tasks lines inTaskList) ->
  exists before line after,
    lines = (before ++ line :: after)%list /\
    row_line line = true /\ row = Js.trim line /\
    (inTaskList = true \/
     exists header, In header before /\ header_line header = true).
Proof.
  revert inTaskList. induction lines as [|l lines IH]; intros b Hin;
    [contradiction|].
  simpl in Hin. destruct (header_line l) eqn:Eh.
  - destruct (IH true Hin) as (bf & ln & af & -> & Hr & Ht & _).
    exists (l :: bf), ln, af. repeat split; auto.
    right. exists l. split; [now left | exact Eh].
  - assert (Hcases :
      (b = true /\ row_line l = true /\ row = Js.trim l) \/
      In row (collect_tasks lines b)).
    { destruct b; simpl in Hin.
      - rewrite andb_false_r in Hin.
        destruct (row_line l); simpl in Hin; [|now right].
        destruct Hin as [<-|Hin]; [left; auto | now right].
      - destruct (Js.includes "tasks" l); simpl in Hin;
          [contradiction | now right]. }
    destruct Hcases as [(-> & Hr & ->)|Hin'].
    + exists [], l, lines. repeat split; auto.
    + destruct (IH b Hin') as (bf & ln & af & -> & Hr & Ht & Hh).
      exists (l :: bf), ln, af. repeat split; auto.
      destruct Hh as [->|(h & Hh & Hhh)]; [now left|].
      right. exists h. split; [now right | exact Hhh].
Qed.

(** Once inside the listing, every later line that begins with a number is
    collected; header lines are skipped. *)
Lemma collect_tasks_inside (lines : list string) :
  collect_tasks lines true =
  map Js.trim (filter (fun l => negb (header_line l) && row_line l) lines).
Proof.
  induction lines as [|l lines IH]; simpl; [reflexivity|].
  destruct (header_line l); simpl; [exact IH|].
  rewrite andb_false_r.
  destruct (row_line l); simpl; now rewrite IH.
Qed.

Lemma collect_tasks_after_header (before after : list string)
  (header : string) :
  header_line header = true ->
  (forall l, In l before ->
     header_line l = false /\ Js.includes "tasks" l = false) ->
  collect_tasks (before ++ header :: after) false =
  map Js.trim (filter (fun l => negb (header_line l) && row_line l) after).
Proof.
  intros Hh. induction before as [|l before IH]; intros Hb; simpl.
  - rewrite Hh. apply collect_tasks_inside.
  - destruct (Hb l (or_introl eq_refl)) as [-> ->]. simpl.
    apply IH. intros l' Hl'. apply Hb. now right.
Qed.

(** C10.  Under the [list] and [next] intents, when the loop collects at
    least one row the result is the [Current tasks:] block holding exactly
    the collected rows joined by line breaks, and otherwise the raw output;
    under every other intent the result is the raw output.  The collected
    rows are trimmed lines that begin with a number and follow a header
    line; after the first header line, if no earlier line mentions [tasks],
    they are all such lines. *)
Theorem formatOutput_normalizes (output action : string) :
  ((action = "list" \/ action = "next") ->
   task_rows output <> [] ->
   formatOutput output action =
   "Current tasks:" ++ Js.nl ++ Js.join Js.nl (task_rows output)) /\
  ((action = "list" \/ action = "next") ->
   task_rows output = [] ->
   formatOutput output action = output) /\
  (action <> "list" -> action <> "next" ->
   formatOutput output action = output) /\
  (forall row, In row (task_rows output) ->
   exists before line after header,
     output_lines output = (before ++ line :: after)%list /\
     row_line line = true /\ row = Js.trim line /\
     In header before /\ header_line header = true) /\
  (forall before header after,
     output_lines output = (before ++ header :: after)%list ->
     header_line header = true ->
     (forall l, In l before ->
        header_line l = false /\ Js.includes "tasks" l = false) ->
     task_rows output =
     map Js.trim
       (filter (fun l => negb (header_line l) && row_line l) after)).
Proof.
  unfold formatOutput, task_rows, output_lines.
  set (lines := filter _ _). repeat split.
  - intros Ha Hrows.
    assert (E : (action =? "list") || (action =? "next") = true)
      by (destruct Ha as [-> | ->]; reflexivity).
    rewrite E. destruct (collect_tasks lines false); [congruence|].
    reflexivity.
  - intros Ha Hrows.
    destruct ((action =? "list") || (action =? "next"));
      [now rewrite Hrows | reflexivity].
  - intros Hl Hn.
    apply String.eqb_neq in Hl, Hn. now rewrite Hl, Hn.
  - intros row Hin.
    destruct (collect_tasks_sound lines false row Hin)
      as (bf & ln & af & E & Hr & Ht & Hh).
    destruct Hh as [Hh|(h & Hh & Hhh)]; [discriminate|].
    exists bf, ln, af, h. auto.
  - intros before header after E Hh Hb. rewrite E.
    now apply collect_tasks_after_header.
Qed.

Lemma formatOutput_normalizes_witness :
  formatOutput
    ("ID Age Description" ++ Js.nl ++ " 1 2d  fix login " ++ Js.nl ++
     "2 3d write docs")
    "list" =
  "Current tasks:" ++ Js.nl ++ "1 2d  fix login" ++ Js.nl ++
  "2 3d write docs" /\
  formatOutput "No matches." "next" = "No matches." /\
  formatOutput "Created task 1." "add" = "Created task 1.".
Proof.
  split; [|split].
  - rewrite (proj1 (formatOutput_normalizes _ "list"));
      [reflexivity | now left | vm_compute; discriminate].
  - apply (proj1 (proj2 (formatOutput_normalizes _ "next")));
      [now right | reflexivity].
  - apply (proj1 (proj2 (proj2 (formatOutput_normalizes _ "add"))));
      discriminate.
Defined.

(** ** Trimming *)

Lemma trimStart_stops (s : string) : stops Js.is_space (Js.trimStart s).
Proof.
  induction s as [|c s IH]; simpl; [exact I|].
  destruct (Js.is_space c) eqn:E; [exact IH | exact E].
Qed.

Lemma trimStart_fixed (s : string) :
  stops Js.is_space s -> Js.trimStart s = s.
Proof. destruct s as [|c s]; simpl; [reflexivity | now intros ->]. Qed.

Lemma trimEnd_stops (s : string) :
  stops Js.is_space s -> stops Js.is_space (Js.trimEnd s).
Proof.
  destruct s as [|c s]; simpl; [auto|].
  intros E. rewrite E. simpl. exact E.
Qed.

Lemma trimEnd_idem (s : string) : Js.trimEnd (Js.trimEnd s) = Js.trimEnd s.
Proof.
  induction s as [|c s IH]; simpl; [reflexivity|].
  destruct (Js.is_space c && negb (Js.nonempty (Js.trimEnd s))) eqn:E;
    [reflexivity|].
  simpl. now rewrite IH, E.
Qed.

Lemma trim_idem (s : string) : Js.trim (Js.trim s) = Js.trim s.
Proof.
  unfold Js.trim.
  rewrite (trimStart_fixed (Js.trimEnd (Js.trimStart s))).
  - apply trimEnd_idem.
  - apply trimEnd_stops, trimStart_stops.
Qed.

Lemma nonempty_true (s : string) : Js.nonempty s = true <-> s <> EmptyString.
Proof. destruct s; simpl; split; intros H; congruence || discriminate. Qed.

Lemma nonempty_false (s : string) : Js.nonempty s = false <-> s = EmptyString.
Proof. destruct s; simpl; split; intros H; congruence || discriminate. Qed.

Lemma truthy_some (o : option string) : truthy o = true -> o = Some (get o).
Proof. destruct o; simpl; [reflexivity | discriminate]. Qed.

Lemma truthy_get_nonempty (o : option string) :
  truthy o = true -> get o <> EmptyString.
Proof.
  destruct o as [s|]; simpl; [apply nonempty_true | discriminate].
Qed.

Lemma or_else_nonempty (o : option string) (d : string) :
  d <> EmptyString -> or_else o d <> EmptyString.
Proof.
  intros Hd. unfold or_else. destruct (truthy o) eqn:E; [|exact Hd].
  destruct o as [s|]; simpl in *; [now apply nonempty_true | discriminate].
Qed.

Lemma or_else_same (x : string) : or_else (Some x) x = x.
Proof. unfold or_else. simpl. now destruct (Js.nonempty x). Qed.

Lemma or_else_present (x d : string) :
  Js.nonempty x = true -> or_else (Some x) d = x.
Proof. unfold or_else. simpl. now intros ->. Qed.

(** ** Command synthesis: the project-scope filter *)

(** C1, as stated, fails.  On a checkout of the repository [shop] whose
    branch is [DRX-7] the request [next] is scoped by
    [project:shop], while the fallback chain of [formatTaskwarriorProject]
    yields the ticket [DRX-7]; and two contexts on which the chain yields
    the same label get different filters, so the filter is no formatting of
    the chain's result. *)
Lemma project_filter_not_fallback_chain :
  parseNaturalLanguage posix_join sample_parse (repo_env "DRX-7" false)
    emptyContext "next" = Returns ("next", "project:shop") /\
  detectContext posix_join sample_parse (repo_env "DRX-7" false) emptyContext
    = Returns (mkContext (Some "DRX-7") (Some "shop") (Some "/home/u/shop")
                 (Some "/home/u/shop/.tickets")) /\
  formatTaskwarriorProject
    (mkContext (Some "DRX-7") (Some "shop") (Some "/home/u/shop")
       (Some "/home/u/shop/.tickets")) = "DRX-7" /\
  ~ (exists format : string -> string,
       forall context args,
         truthy (currentTicket context) || truthy (currentProject context)
         = true ->
         snd (synthesize "next" args context)
         = format (formatTaskwarriorProject context)).
Proof.
  repeat split; try reflexivity.
  intros [format H].
  pose proof (H (mkContext (Some "DRX-7") (Some "shop") None None)
                EmptyString eq_refl) as H1.
  pose proof (H (mkContext (Some "DRX-7") (Some "web") None None)
                EmptyString eq_refl) as H2.
  vm_compute in H1, H2. congruence.
Qed.

(** C1, amended.  For the [list] intent without cue and for the [next]
    intent the argument is the project-scope filter, which is
    [project:] followed by [currentProject] when that field holds a
    non-empty string and is empty otherwise; [currentTicket] and the default
    label of the fallback chain play no part, and a context with neither
    project nor ticket yields the empty filter. *)
Theorem project_scope_filter (args : string)
  (ticket project workspace tickets : option string) :
  let context := mkContext ticket project workspace tickets in
  (no_cue args = true ->
   synthesize "list" args context = ("list", projectFilter context)) /\
  synthesize "next" args context = ("next", projectFilter context) /\
  projectFilter context =
    match project with
    | Some p => if Js.nonempty p then "project:" ++ p else EmptyString
    | None => EmptyString
    end /\
  (truthy ticket = false -> truthy project = false ->
   projectFilter context = EmptyString).
Proof.
  intros context. repeat split.
  - unfold no_cue, synthesize. intros H.
    apply negb_true_iff in H.
    repeat (apply orb_false_iff in H as [H ?]).
    cbn [String.eqb Ascii.eqb Bool.eqb].
    replace (Js.includes "today" args) with false by auto.
    replace (Js.includes "now" args) with false by auto.
    replace (Js.includes "urgent" args) with false by auto.
    replace (Js.includes "high" args) with false by auto.
    replace (Js.includes "project" args) with false by auto.
    reflexivity.
  - unfold projectFilter, context. destruct project as [p|]; reflexivity.
  - intros _ Hp. unfold projectFilter, context. cbn [currentProject].
    now rewrite Hp.
Qed.

Lemma project_scope_filter_witness :
  synthesize "list" "me everything" (mkContext (Some "DRX-7") (Some "shop")
                                       None None)
  = ("list", "project:shop") /\
  projectFilter emptyContext = EmptyString.
Proof.
  split.
  - apply (proj1 (project_scope_filter "me everything" (Some "DRX-7")
                    (Some "shop") None None)).
    reflexivity.
  - apply (proj2 (proj2 (proj2 (project_scope_filter EmptyString None None
                                  None None)))); reflexivity.
Defined.

(** ** Context detection *)

Ltac split_match :=
  match goal with
  | |- context [match ?x with _ => _ end] =>
      lazymatch x with
      | context [match _ with _ => _ end] => fail
      | _ => destruct x eqn:?
      end
  end.

Ltac fields :=
  cbn [currentTicket currentProject workspacePath ticketsPath
       with_currentTicket with_currentProject with_workspacePath
       with_ticketsPath].

Ltac use_truthy :=
  repeat match goal with
         | H : truthy _ = true |- _ => apply truthy_some in H
         end.


Section DetectContext.

Variable join : string -> string -> string.
Variable parseTaskState : string -> option TaskState.

Lemma executeCommand_trimmed (env : Env) (command : string) :
  Js.trim (executeCommand env command) = executeCommand env command.
Proof.
  unfold executeCommand. destruct (execAsync env command);
    [apply trim_idem | reflexivity].
Qed.

(** Once the working directory is known, [detectContext] rejects exactly
    when the marker file is there and reading it fails: that read is
    outside every [try], unlike every other read, parse and command. *)
Lemma detectContext_throws_iff (env : Env) (context : ProjectContext) :
  detectContext join parseTaskState env context = Throws <->
  access env (marker join env) = true /\
  readFile env (marker join env) = None.
Proof.
  unfold detectContext, marker, exists_.
  destruct (access env (join (cwd env) ".taskproject")).
  - destruct (readFile env (join (cwd env) ".taskproject")); simpl;
      split; intros H; try discriminate; auto.
    destruct H; discriminate.
  - destruct (Js.nonempty (executeCommand env "git rev-parse --show-toplevel"));
      simpl; split; intros H; try discriminate; destruct H; discriminate.
Qed.

(** C8.  When the marker file does not stop detection, [detectContext]
    returns, and the ticket of the returned context is taken from the two
    sources in a fixed order: the branch name when it begins with a ticket
    code, else the [currentFocus.ticket] field of the state file under the
    workspace root, else the ticket the context already had.  So when both
    sources yield a value, the one derived from the branch is returned. *)
Theorem ticket_sources_precedence (env : Env) (context : ProjectContext) :
  marker_readable join env ->
  exists context' root,
    detectContext join parseTaskState env context = Returns context' /\
    workspacePath context' = Some root /\
    currentTicket context' =
      match branch_ticket env with
      | Some b => Some b
      | None =>
          match state_file_ticket join parseTaskState env root with
          | Some t => Some t
          | None => currentTicket context
          end
      end /\
    (forall t b,
       state_file_ticket join parseTaskState env root = Some t ->
       branch_ticket env = Some b ->
       currentTicket context' = Some b).
Proof.
  intros Hm.
  unfold detectContext, marker_readable, marker, exists_ in *.
  unfold branch_ticket, state_file_ticket.
  set (branch := executeCommand env "git branch --show-current").
  set (top := executeCommand env "git rev-parse --show-toplevel").
  assert (Htop : Js.trim top = top) by apply executeCommand_trimmed.
  assert (Hbranch : Js.trim branch = branch) by apply executeCommand_trimmed.
  rewrite Hbranch.
  destruct (access env (join (cwd env) ".taskproject")) eqn:Ea.
  - destruct Hm as [Hm|[content Hc]]; [discriminate|]. rewrite Hc.
    cbn [bind]. eexists; exists (cwd env).
    fields. rewrite or_else_same.
    split; [reflexivity|].
    repeat split_match; fields; repeat split; intros; use_truthy;
      congruence.
  - destruct (Js.nonempty top) eqn:Et; cbn [bind].
    + eexists; exists top. rewrite Htop.
      fields. rewrite (or_else_present top _ Et).
      split; [reflexivity|].
      repeat split_match; fields; repeat split; intros; use_truthy;
        congruence.
    + eexists; exists (cwd env).
      fields. rewrite or_else_same.
      split; [reflexivity|].
      repeat split_match; fields; repeat split; intros; use_truthy;
        congruence.
Qed.



End DetectContext.




(** C2.  With an entry [.taskproject] that exists and cannot be read,
    [detectContext] rejects instead of returning a context: no [try]
    guards the read of the marker file, unlike every other read, parse and
    command of the function. *)
Theorem detectContext_rejects_unreadable_marker :
  access unreadable_marker_env
    (marker posix_join unreadable_marker_env) = true /\
  readFile unreadable_marker_env
    (marker posix_join unreadable_marker_env) = None /\
  forall parseTaskState context,
    detectContext posix_join parseTaskState unreadable_marker_env context
    = Throws.
Proof.
  split; [reflexivity|]. split; [reflexivity|].
  intros parseTaskState context.
  apply detectContext_throws_iff. split; reflexivity.
Qed.

Lemma ticket_sources_precedence_witness :
  exists context',
    detectContext posix_join sample_parse (repo_env "DRX-7" true)
      emptyContext = Returns context' /\
    state_file_ticket posix_join sample_parse (repo_env "DRX-7" true)
      "/home/u/shop" = Some "DRX-1" /\
    currentTicket context' = Some "DRX-7".
Proof.
  destruct (ticket_sources_precedence posix_join sample_parse
              (repo_env "DRX-7" true) emptyContext)
    as (c & root & Hd & Hw & Ht & Hboth).
  - left. reflexivity.
  - exists c. split; [exact Hd|]. split; [reflexivity|].
    vm_compute in Hd. injection Hd as <-.
    injection Hw as <-.
    apply (Hboth "DRX-1" "DRX-7"); reflexivity.
Defined.

(** ** Ticket tasks *)

(** *** Inversion of the matcher *)

Lemma lit_strip {A : Type} (w s : string) (k : string -> option A) :
  Js.lit true w s k =
  match strip_ci w s with
  | Some rest => k rest
  | None => None
  end.
Proof.
  unfold strip_ci. revert s.
  induction w as [|a w IH]; intros s; simpl; [reflexivity|].
  destruct s as [|b s]; [reflexivity|].
  destruct (Js.eq_ci a b); [apply IH | reflexivity].
Qed.

Lemma strip_ci_suffix (w s rest : string) :
  strip_ci w s = Some rest -> exists a, s = a ++ rest.
Proof.
  unfold strip_ci. revert s.
  induction w as [|a w IH]; intros s; simpl.
  - intros [= ->]. now exists EmptyString.
  - destruct s as [|b s]; [discriminate|].
    destruct (Js.eq_ci a b); [|discriminate].
    intros H. destruct (IH _ H) as [x ->]. now exists (String b x).
Qed.

Lemma plus_inv {A : Type} (p : ascii -> bool) (s : string)
  (k : string -> option A) (r : A) :
  Js.plus p s k = Some r ->
  exists run s',
    s = run ++ s' /\ run <> EmptyString /\ all_chars p run = true /\
    k s' = Some r.
Proof.
  induction s as [|c s IH]; simpl; [discriminate|].
  destruct (p c) eqn:Ec; [|discriminate].
  destruct (Js.plus p s k) as [r'|] eqn:E.
  - intros [= <-]. destruct (IH eq_refl) as (run & s' & -> & _ & Hall & Hk).
    exists (String c run), s'. repeat split; try discriminate; auto.
    simpl. now rewrite Ec.
  - intros Hk. exists (String c EmptyString), s.
    repeat split; try discriminate; auto. simpl. now rewrite Ec.
Qed.

Lemma take_while_empty_stops (p : ascii -> bool) (s : string) :
  take_while p s = EmptyString -> stops p s.
Proof.
  destruct s as [|c s]; simpl; [auto|].
  destruct (p c); [discriminate | reflexivity].
Qed.

Lemma between_take_drop (p : ascii -> bool) (s : string) :
  Js.between s (drop_while p s) = take_while p s.
Proof.
  rewrite (take_drop_while p s) at 1. apply between_append.
Qed.

(** The group [(.+)] at the end of a pattern takes the longest run of
    characters that are not line terminators. *)
Lemma dot_plus (s2 : string) :
  Js.plus Js.dot s2 (fun s3 => Some (Js.between s2 s3, s3)) =
  if Js.nonempty (take_while Js.dot s2)
  then Some (take_while Js.dot s2, drop_while Js.dot s2)
  else None.
Proof.
  destruct (Js.nonempty (take_while Js.dot s2)) eqn:E.
  - apply plus_longest; [now apply nonempty_true|].
    now rewrite between_take_drop.
  - apply plus_none_head, take_while_empty_stops.
    now apply nonempty_false.
Qed.

(** What a match of the TODO pattern at the start of [s] looks like. *)
Lemma todo_at_inv (s text rest : string) :
  todo_at s = Some (text, rest) ->
  exists a s2,
    s = a ++ s2 /\ a <> EmptyString /\
    text = take_while Js.dot s2 /\ rest = drop_while Js.dot s2.
Proof.
  unfold todo_at. rewrite lit_strip.
  destruct (strip_ci "TODO" s) as [s1|] eqn:E1; [|discriminate].
  intros H. apply plus_inv in H as (run & s2 & -> & Hrun & _ & H).
  rewrite dot_plus in H.
  destruct (Js.nonempty (take_while Js.dot s2)); [|discriminate].
  injection H as <- <-.
  destruct (strip_ci_suffix _ _ _ E1) as [a ->].
  exists (a ++ run), s2. rewrite append_assoc. repeat split.
  destruct a; [destruct run; [congruence | discriminate] | discriminate].
Qed.

(** *** The fuel of [matchAll] *)

Lemma drop_while_length (p : ascii -> bool) (s : string) :
  String.length (drop_while p s) <= String.length s.
Proof.
  induction s as [|c s IH]; simpl; [lia|].
  destruct (p c); simpl; lia.
Qed.

Lemma todo_at_shorter (s text rest : string) :
  todo_at s = Some (text, rest) -> String.length rest < String.length s.
Proof.
  intros H. apply todo_at_inv in H as (a & s2 & -> & Ha & _ & ->).
  rewrite length_append.
  pose proof (drop_while_length Js.dot s2).
  destruct a; [congruence | simpl; lia].
Qed.

Lemma search_inv {A : Type} (m : string -> option A) (s : string) (r : A) :
  Js.search m s = Some r -> exists a b, s = a ++ b /\ m b = Some r.
Proof.
  induction s as [|c s IH]; simpl.
  - destruct (m EmptyString) eqn:E; [|discriminate].
    intros [= <-]. now exists EmptyString, EmptyString.
  - destruct (m (String c s)) eqn:E.
    + intros [= <-]. now exists EmptyString, (String c s).
    + intros H. destruct (IH H) as (a & b & -> & Hb).
      now exists (String c a), b.
Qed.

Lemma search_todo_shorter (s text rest : string) :
  Js.search todo_at s = Some (text, rest) ->
  String.length rest < String.length s.
Proof.
  intros H. apply search_inv in H as (a & b & -> & Hb).
  apply todo_at_shorter in Hb. rewrite length_append. lia.
Qed.

(** Any fuel at least the length of the text gives the same matches: the
    fuel of [matchAll] never runs out. *)
Lemma matchAll_fuel_enough (f1 f2 : nat) (s : string) :
  String.length s <= f1 -> String.length s <= f2 ->
  matchAll_fuel f1 todo_at s = matchAll_fuel f2 todo_at s.
Proof.
  revert f2 s. induction f1 as [|f1 IH]; intros f2 s H1 H2.
  - destruct s; [|simpl in H1; lia]. now destruct f2.
  - destruct f2 as [|f2].
    + destruct s; [reflexivity | simpl in H2; lia].
    + simpl. destruct (Js.search todo_at s) as [[text rest]|] eqn:E;
        [|reflexivity].
      apply search_todo_shorter in E. f_equal. apply IH; lia.
Qed.

Lemma matchAll_fuel_matchAll (f : nat) (s : string) :
  String.length s <= f -> matchAll_fuel f todo_at s = matchAll todo_at s.
Proof. intros H. apply matchAll_fuel_enough; [exact H | lia]. Qed.

(** One step of [matchAll]. *)
Lemma matchAll_step (s : string) :
  matchAll todo_at s =
  match Js.search todo_at s with
  | Some (text, rest) => text :: matchAll todo_at rest
  | None => []
  end.
Proof.
  unfold matchAll at 1. destruct s as [|c s]; [reflexivity|].
  cbn [String.length matchAll_fuel].
  destruct (Js.search todo_at (String c s)) as [[text rest]|] eqn:E;
    [|reflexivity].
  apply search_todo_shorter in E. simpl in E.
  f_equal. apply matchAll_fuel_matchAll. lia.
Qed.

(** *** The TODO pattern inside one line *)

Lemma all_chars_app (p : ascii -> bool) (a b : string) :
  all_chars p (a ++ b) = all_chars p a && all_chars p b.
Proof.
  induction a as [|c a IH]; simpl; [reflexivity|].
  now rewrite IH, andb_assoc.
Qed.

Lemma drop_while_all (p : ascii -> bool) (s : string) :
  all_chars p s = true -> drop_while p s = EmptyString.
Proof.
  intros H. rewrite <- (append_empty_r s).
  now apply drop_while_app.
Qed.

Lemma drop_while_suffix (p : ascii -> bool) (s : string) :
  exists a, s = a ++ drop_while p s.
Proof. exists (take_while p s). apply take_drop_while. Qed.

(** A run that ends inside [a] is not changed by what follows [a]. *)
Lemma while_app_inner (p : ascii -> bool) (a b : string) :
  all_chars p a = false ->
  take_while p (a ++ b) = take_while p a /\
  drop_while p (a ++ b) = drop_while p a ++ b /\
  drop_while p a <> EmptyString.
Proof.
  induction a as [|c a IH]; simpl; [discriminate|].
  destruct (p c) eqn:Ec; simpl; intros H.
  - destruct (IH H) as (-> & -> & Hne). auto.
  - repeat split. discriminate.
Qed.

Lemma strip_ci_app_stop (w b : string) (c : ascii) (rest : string) :
  all_chars (fun a => negb (Js.eq_ci a c)) w = true ->
  strip_ci w (b ++ String c rest) =
  option_map (fun b1 => b1 ++ String c rest) (strip_ci w b).
Proof.
  unfold strip_ci. revert b.
  induction w as [|a w IH]; intros b Hw; [reflexivity|].
  simpl in Hw. apply andb_true_iff in Hw as [Ha Hw].
  apply negb_true_iff in Ha.
  destruct b as [|d b]; simpl.
  - now rewrite Ha.
  - destruct (Js.eq_ci a d); [now apply IH | reflexivity].
Qed.

Lemma strip_ci_line_end (b tail : string) :
  line_end tail ->
  strip_ci "TODO" (b ++ tail) =
  option_map (fun b1 => b1 ++ tail) (strip_ci "TODO" b).
Proof.
  intros [-> | [rest ->]].
  - rewrite append_empty_r.
    destruct (strip_ci "TODO" b); simpl; [|reflexivity].
    now rewrite append_empty_r.
  - now apply strip_ci_app_stop.
Qed.

Lemma line_end_stops (tail : string) : line_end tail -> stops Js.dot tail.
Proof. intros [-> | [rest ->]]; [exact I | reflexivity]. Qed.

(** In a line that is not open-ended, a marker at the start of a suffix of
    the line takes its text from the line, up to the end of the line,
    whatever follows the line. *)
Lemma todo_at_line (b tail : string) :
  all_chars Js.dot b = true ->
  open_ended b = false ->
  line_end tail ->
  todo_at (b ++ tail) =
  option_map (fun text => (text, tail)) (marker_text b).
Proof.
  intros Hdot Hopen Htail. unfold todo_at, marker_text.
  rewrite lit_strip, strip_ci_line_end by assumption.
  destruct (strip_ci "TODO" b) as [b1|] eqn:E1; simpl; [|reflexivity].
  assert (Hsep : all_chars colon_or_space b1 = false).
  { destruct b as [|c b]; simpl in Hopen; [discriminate|].
    fold (strip_ci "TODO" (String c b)) in Hopen. rewrite E1 in Hopen.
    now apply orb_false_iff in Hopen as [Hopen _]. }
  destruct (while_app_inner colon_or_space b1 tail Hsep)
    as (Htake & Hdrop & Hne).
  assert (Hb2 : all_chars Js.dot (drop_while colon_or_space b1) = true).
  { destruct (strip_ci_suffix _ _ _ E1) as [a ->].
    destruct (drop_while_suffix colon_or_space b1) as [a' Hb1].
    rewrite Hb1, !all_chars_app in Hdot.
    now repeat (apply andb_true_iff in Hdot as [_ Hdot]). }
  destruct (Js.nonempty (take_while colon_or_space b1)) eqn:Erun.
  - apply plus_longest.
    + rewrite Htake. now apply nonempty_true.
    + rewrite Hdrop, dot_plus.
      rewrite take_while_app, drop_while_app;
        auto using line_end_stops.
      apply nonempty_true in Hne. now rewrite Hne.
  - apply plus_none_head, take_while_empty_stops.
    rewrite Htake. now apply nonempty_false.
Qed.

Lemma open_ended_tail (c : ascii) (l : string) :
  open_ended (String c l) = false -> open_ended l = false.
Proof.
  simpl. intros H. now apply orb_false_iff in H as [_ H].
Qed.

Lemma search_todo_line (l tail : string) :
  all_chars Js.dot l = true ->
  open_ended l = false ->
  line_end tail ->
  Js.search todo_at (l ++ tail) =
  match Js.search marker_text l with
  | Some text => Some (text, tail)
  | None => Js.search todo_at tail
  end.
Proof.
  intros Hdot Hopen Htail. induction l as [|c l IH].
  - reflexivity.
  - change (String c l ++ tail) with (String c (l ++ tail)).
    pose proof (todo_at_line (String c l) tail Hdot Hopen Htail) as H.
    change (String c l ++ tail) with (String c (l ++ tail)) in H.
    destruct (marker_text (String c l)) as [text|] eqn:Em; simpl in H.
    + rewrite (search_here _ _ _ H).
      now rewrite (search_here marker_text _ _ Em).
    + rewrite (search_skip _ _ _ H), (search_skip marker_text _ _ Em).
      simpl in Hdot. apply andb_true_iff in Hdot as [_ Hdot].
      apply IH; [exact Hdot | now apply open_ended_tail in Hopen].
Qed.

(** *** The notes, line by line *)

Lemma matchAll_skip_LF (rest : string) :
  matchAll todo_at (String Js.LF rest) = matchAll todo_at rest.
Proof.
  rewrite (matchAll_step (String Js.LF rest)), (matchAll_step rest).
  now rewrite search_skip by reflexivity.
Qed.

Lemma search_todo_marker (l : string) :
  all_chars Js.dot l = true ->
  open_ended l = false ->
  Js.search todo_at l =
  option_map (fun text => (text, EmptyString)) (Js.search marker_text l).
Proof.
  intros Hdot Hopen.
  pose proof (search_todo_line l EmptyString Hdot Hopen (or_introl eq_refl))
    as H.
  rewrite append_empty_r in H. rewrite H.
  now destruct (Js.search marker_text l).
Qed.

(** A line that is not open-ended gives its own match, if it has one, and
    leaves the lines after it to be searched from their start. *)
Lemma matchAll_line (l rest : string) :
  all_chars Js.dot l = true ->
  open_ended l = false ->
  matchAll todo_at (l ++ String Js.LF rest) =
  match Js.search todo_at l with
  | Some (text, _) => text :: matchAll todo_at rest
  | None => matchAll todo_at rest
  end.
Proof.
  intros Hdot Hopen.
  rewrite matchAll_step.
  rewrite (search_todo_line l (String Js.LF rest) Hdot Hopen)
    by (right; now exists rest).
  rewrite (search_todo_marker l Hdot Hopen).
  destruct (Js.search marker_text l) as [text|]; cbn [option_map].
  - now rewrite matchAll_skip_LF.
  - rewrite search_skip by reflexivity. now rewrite <- matchAll_step.
Qed.

Lemma search_todo_line_rest (l text rest : string) :
  all_chars Js.dot l = true ->
  Js.search todo_at l = Some (text, rest) -> rest = EmptyString.
Proof.
  intros Hdot H. apply search_inv in H as (a & b & -> & Hb).
  apply todo_at_inv in Hb as (a' & s2 & -> & _ & _ & ->).
  rewrite !all_chars_app in Hdot.
  repeat (apply andb_true_iff in Hdot as [_ Hdot]).
  now apply drop_while_all.
Qed.

(** The last line gives at most one match. *)
Lemma matchAll_last (l : string) :
  all_chars Js.dot l = true ->
  matchAll todo_at l =
  match Js.search todo_at l with
  | Some (text, _) => [text]
  | None => []
  end.
Proof.
  intros Hdot. rewrite matchAll_step.
  destruct (Js.search todo_at l) as [[text rest]|] eqn:E; [|reflexivity].
  now rewrite (search_todo_line_rest _ _ _ Hdot E).
Qed.

Lemma split_LF_cases (n : string) :
  (all_chars (fun c => negb (Ascii.eqb c Js.LF)) n = true /\
   Js.split Js.LF n = [n]) \/
  (exists l rest,
     n = l ++ String Js.LF rest /\
     all_chars (fun c => negb (Ascii.eqb c Js.LF)) l = true /\
     Js.split Js.LF n = l :: Js.split Js.LF rest).
Proof.
  induction n as [|c n IH]; [now left|].
  simpl. destruct (Ascii.eqb c Js.LF) eqn:Ec.
  - right. apply Ascii.eqb_eq in Ec as ->.
    exists EmptyString, n. auto.
  - destruct IH as [[Hall Hs]|(l & rest & -> & Hall & Hs)].
    + left. rewrite Hs. simpl. auto.
    + right. exists (String c l), rest. rewrite Hs. simpl.
      rewrite Ec. auto.
Qed.

Lemma split_nonnil (sep : ascii) (s : string) : Js.split sep s <> [].
Proof.
  destruct s as [|c s]; simpl; [discriminate|].
  destruct (Ascii.eqb c sep); [discriminate|].
  destruct (Js.split sep s); discriminate.
Qed.

Lemma dot_of_line (c : ascii) :
  Ascii.eqb c Js.LF = false ->
  Js.dot c || Ascii.eqb c Js.LF = true ->
  Js.dot c = true.
Proof.
  intros ->. now rewrite orb_false_r.
Qed.

Lemma all_dot_of_line (l : string) :
  all_chars (fun c => negb (Ascii.eqb c Js.LF)) l = true ->
  all_chars (fun c => Js.dot c || Ascii.eqb c Js.LF) l = true ->
  all_chars Js.dot l = true.
Proof.
  induction l as [|c l IH]; simpl; [reflexivity|].
  intros H1 H2.
  apply andb_true_iff in H1 as [Hc1 H1].
  apply andb_true_iff in H2 as [Hc2 H2].
  apply negb_true_iff in Hc1.
  now rewrite (dot_of_line c Hc1 Hc2), IH.
Qed.

Lemma todo_tasks_lines (lines : list string) (n : string) :
  Js.split Js.LF n = lines ->
  all_chars (fun c => Js.dot c || Ascii.eqb c Js.LF) n = true ->
  closed_lines lines = true ->
  todo_tasks n = todo_lines lines.
Proof.
  revert n. induction lines as [|l0 lines IH]; intros n Hs Hcr Hclosed.
  - now apply split_nonnil in Hs.
  - unfold todo_tasks in *.
    destruct (split_LF_cases n) as [[Hlf Hn]|(l & rest & -> & Hlf & Hn)].
    + rewrite Hn in Hs. injection Hs as <- <-.
      rewrite matchAll_last by now apply all_dot_of_line.
      simpl. unfold todo_line.
      now destruct (Js.search todo_at n) as [[text rest]|].
    + rewrite Hn in Hs. injection Hs as <- <-.
      rewrite all_chars_app in Hcr. apply andb_true_iff in Hcr as [Hcr1 Hcr2].
      simpl in Hcr2.
      assert (Hrest : closed_lines (Js.split Js.LF rest) = true /\
                      open_ended l = false).
      { simpl in Hclosed. destruct (Js.split Js.LF rest) eqn:E.
        - now apply split_nonnil in E.
        - apply andb_true_iff in Hclosed as [Ho Hc].
          now apply negb_true_iff in Ho. }
      destruct Hrest as [Hc Ho].
      rewrite matchAll_line by (auto using all_dot_of_line).
      simpl. unfold todo_line.
      destruct (Js.search todo_at l) as [[text r]|]; simpl;
        now rewrite (IH rest).
Qed.

(** On notes that are line-local, [getTicketTasks] reads the notes line by
    line. *)
Lemma todo_tasks_by_line (notes : string) :
  line_local notes = true ->
  todo_tasks notes = todo_lines (Js.split Js.LF notes).
Proof.
  unfold line_local. intros H. apply andb_true_iff in H as [Hcr Hc].
  now apply (todo_tasks_lines _ notes).
Qed.

(** *** The checklist *)

Lemma lit_prefix {A : Type} (w s : string) (k : string -> option A) :
  Js.lit false w (w ++ s) k = k s.
Proof.
  induction w as [|a w IH]; simpl; [reflexivity|].
  now rewrite Ascii.eqb_refl.
Qed.

Lemma lit_not_prefix {A : Type} (w s : string) (k : string -> option A) :
  Js.startsWith w s = false -> Js.lit false w s k = None.
Proof.
  revert s. induction w as [|a w IH]; intros s; simpl; [discriminate|].
  destruct s as [|b s]; [reflexivity|].
  destruct (Ascii.eqb a b); simpl; [apply IH | reflexivity].
Qed.

(** A line is an unchecked-checkbox line when it starts with the marker
    followed by at least one character that is not a line terminator; its
    task text runs up to the first line terminator. *)
Lemma checkbox_item_marked (body : string) :
  checkbox_item ("- [ ] " ++ body) =
  if Js.nonempty (take_while Js.dot body)
  then Some (take_while Js.dot body)
  else None.
Proof.
  unfold checkbox_item. rewrite lit_prefix.
  destruct (Js.nonempty (take_while Js.dot body)) eqn:E.
  - apply plus_longest; [now apply nonempty_true|].
    now rewrite between_take_drop.
  - apply plus_none_head, take_while_empty_stops.
    now apply nonempty_false.
Qed.

Lemma checkbox_item_unmarked (line : string) :
  Js.startsWith "- [ ] " line = false -> checkbox_item line = None.
Proof. apply lit_not_prefix. Qed.

Section TicketTasks.

Variable join : string -> string -> string.

(** C7, amended.  [getTicketTasks] returns the empty sequence when
    [ticketsPath] is unset and when neither file of the ticket directory
    exists.  It is rejected exactly when [ticketsPath] is set and one of the
    two files exists but cannot be read.  When [ticketsPath] is set and each
    of the two files is either absent or read with success, it returns the
    task texts of the unchecked-checkbox lines of the checklist, in order,
    followed by the task texts found in the notes, an absent file giving
    none.  The notes are scanned as one text: the texts found are those of
    the TODO-marked lines, one per line in order, whenever the only line
    terminators of the notes are line feeds and none of their lines but the
    last ends with a marker that has no text. *)
Theorem getTicketTasks_tasks (env : Env) (context : ProjectContext)
  (ticket : string) :
  let dir := join (get (ticketsPath context)) ticket in
  (truthy (ticketsPath context) = false ->
   getTicketTasks join env context ticket = Returns []) /\
  (access env (join dir "mr-checklist.md") = false ->
   access env (join dir "context.md") = false ->
   getTicketTasks join env context ticket = Returns []) /\
  (getTicketTasks join env context ticket = Throws <->
   truthy (ticketsPath context) = true /\
   ((access env (join dir "mr-checklist.md") = true /\
     readFile env (join dir "mr-checklist.md") = None) \/
    (access env (join dir "context.md") = true /\
     readFile env (join dir "context.md") = None))) /\
  (forall checklist notes,
     truthy (ticketsPath context) = true ->
     file_is env (join dir "mr-checklist.md") checklist ->
     file_is env (join dir "context.md") notes ->
     getTicketTasks join env context ticket
     = Returns (checklist_items checklist ++ note_items notes)%list) /\
  (forall notes,
     (forall text, notes = Some text -> line_local text = true) ->
     note_items notes = note_items_by_line notes).
Proof.
  intros dir. unfold getTicketTasks, exists_. fold dir.
  split; [|split; [|split; [|split]]].
  - now intros ->.
  - intros H1 H2. rewrite H1, H2. simpl.
    now destruct (truthy (ticketsPath context)).
  - destruct (truthy (ticketsPath context)); simpl;
      [|split; [discriminate | intros [? _]; discriminate]].
    destruct (access env (join dir "mr-checklist.md"));
      destruct (readFile env (join dir "mr-checklist.md"));
      destruct (access env (join dir "context.md"));
      destruct (readFile env (join dir "context.md")); simpl;
      split; try discriminate; auto;
      intros [_ [[? ?]|[? ?]]]; discriminate.
  - intros checklist notes Htp Hc Hn. rewrite Htp. simpl.
    destruct checklist as [c|], notes as [n|]; simpl in Hc, Hn.
    + destruct Hc as [-> ->], Hn as [-> ->]. reflexivity.
    + destruct Hc as [-> ->]. rewrite Hn. simpl.
      now rewrite app_nil_r.
    + destruct Hn as [-> ->]. now rewrite Hc.
    + now rewrite Hc, Hn.
  - intros [text|] H; [|reflexivity].
    simpl. apply todo_tasks_by_line. now apply H.
Qed.

End TicketTasks.

Lemma getTicketTasks_tasks_witness :
  getTicketTasks posix_join
    (ticket_env (Some ("- [ ] A" ++ Js.nl ++ "- [x] done" ++ Js.nl ++ "- [ ] B"))
                (Some ("notes" ++ Js.nl ++ "TODO: ship it " ++ Js.nl ++
                       "todo review")))
    ticket_context "DRX-1"
  = Returns ["A"; "B"; "ship it"; "review"] /\
  getTicketTasks posix_join (ticket_env None None) ticket_context "DRX-1"
  = Returns [] /\
  getTicketTasks posix_join (ticket_env (Some "- [ ] A") None) emptyContext
    "DRX-1"
  = Returns [] /\
  getTicketTasks posix_join unreadable_notes_env ticket_context "DRX-1"
  = Throws /\
  todo_tasks ("notes" ++ Js.nl ++ "TODO: ship it " ++ Js.nl ++ "todo review")
  = todo_lines
      (Js.split Js.LF
         ("notes" ++ Js.nl ++ "TODO: ship it " ++ Js.nl ++ "todo review")).
Proof.
  split; [|split; [|split; [|split]]].
  - rewrite (proj1 (proj2 (proj2 (proj2
      (getTicketTasks_tasks posix_join _ ticket_context "DRX-1"))))
      (Some ("- [ ] A" ++ Js.nl ++ "- [x] done" ++ Js.nl ++ "- [ ] B"))
      (Some ("notes" ++ Js.nl ++ "TODO: ship it " ++ Js.nl ++ "todo review")));
      [reflexivity | reflexivity | split; reflexivity | split; reflexivity].
  - apply (proj1 (proj2
      (getTicketTasks_tasks posix_join (ticket_env None None) ticket_context
         "DRX-1"))); reflexivity.
  - apply (proj1
      (getTicketTasks_tasks posix_join (ticket_env (Some "- [ ] A") None)
         emptyContext "DRX-1")); reflexivity.
  - apply (proj2 (proj1 (proj2 (proj2
      (getTicketTasks_tasks posix_join unreadable_notes_env ticket_context
         "DRX-1"))))).
    split; [reflexivity | right; split; reflexivity].
  - apply (proj2 (proj2 (proj2 (proj2
      (getTicketTasks_tasks posix_join (ticket_env None None) ticket_context
         "DRX-1"))))
      (Some ("notes" ++ Js.nl ++ "TODO: ship it " ++ Js.nl ++ "todo review"))).
    intros text [= <-]. reflexivity.
Defined.

(** C7, as stated, fails.  In the notes made of the lines [TODO:] and
    [foo], no line holds a marker followed by text, so a reading line by
    line yields no task; the code scans the notes as one text, lets the run
    of colons and white space after the word cross the line break, and
    returns the task [foo].  In the notes made of the lines [TODO:] and
    [TODO: x], both lines carry the marker and the second yields [x] when
    read by line; the code returns the single task [TODO: x]. *)
Lemma notes_not_read_line_by_line :
  getTicketTasks posix_join
    (ticket_env None (Some ("TODO:" ++ Js.nl ++ "foo")))
    ticket_context "DRX-1"
  = Returns ["foo"] /\
  Js.split Js.LF ("TODO:" ++ Js.nl ++ "foo") = ["TODO:"; "foo"] /\
  todo_line "TODO:" = None /\
  todo_line "foo" = None /\
  getTicketTasks posix_join
    (ticket_env None (Some ("TODO:" ++ Js.nl ++ "foo")))
    ticket_context "DRX-1"
  <> Returns (checklist_items None ++
              note_items_by_line
                (Some ("TODO:" ++ Js.nl ++ "foo")%string))%list /\
  getTicketTasks posix_join
    (ticket_env None (Some ("TODO:" ++ Js.nl ++ "TODO: x")))
    ticket_context "DRX-1"
  = Returns ["TODO: x"] /\
  note_items_by_line (Some ("TODO:" ++ Js.nl ++ "TODO: x")) = ["x"].
Proof. repeat split. discriminate. Qed.

(* ===================================================================== *)
(** * Part III: further properties of the code                            *)
(* ===================================================================== *)

(** ** Context detection, continued *)

Section DetectContextMore.

Variable join : string -> string -> string.
Variable parseTaskState : string -> option TaskState.

(** X1.  Detection is idempotent in a fixed environment: detecting again
    from the context a detection returned returns that context again. *)
Theorem detectContext_idempotent (env : Env) (context c : ProjectContext) :
  detectContext join parseTaskState env context = Returns c ->
  detectContext join parseTaskState env c = Returns c.
Proof.
  unfold detectContext, exists_.
  set (branch := executeCommand env "git branch --show-current").
  set (top := executeCommand env "git rev-parse --show-toplevel").
  assert (Htop : Js.trim top = top) by apply executeCommand_trimmed.
  rewrite Htop.
  destruct (access env (join (cwd env) ".taskproject")) eqn:Ea.
  - destruct (readFile env (join (cwd env) ".taskproject")) as [content|];
      [|discriminate].
    cbn [bind]. fields. rewrite or_else_same.
    intros [= <-]. f_equal.
    repeat split_match; fields; reflexivity.
  - destruct (Js.nonempty top) eqn:Et; cbn [bind]; fields.
    + rewrite (or_else_present top _ Et).
      intros [= <-]. f_equal.
      repeat split_match; fields; reflexivity.
    + rewrite or_else_same.
      intros [= <-]. f_equal.
      repeat split_match; fields; reflexivity.
Qed.

(** X2.  Whenever [detectContext] returns, the project of the returned
    context is taken from three sources in a fixed order.  A marker file
    gives its trimmed contents as project and anchors workspace and tickets
    path at the working directory, inside a repository or not; otherwise
    the top-level directory the version-control client prints gives its
    last segment as project and anchors both paths; otherwise the last
    segment of the working directory is the project, the workspace is the
    working directory, and the tickets path is left as it was before the
    call. *)
Theorem project_sources_precedence (env : Env) (context c : ProjectContext) :
  detectContext join parseTaskState env context = Returns c ->
  (forall content,
     access env (marker join env) = true ->
     readFile env (marker join env) = Some content ->
     currentProject c = Some (Js.trim content) /\
     workspacePath c = Some (cwd env) /\
     ticketsPath c = Some (join (cwd env) ".tickets")) /\
  (forall top,
     access env (marker join env) = false ->
     top = executeCommand env "git rev-parse --show-toplevel" ->
     (top <> EmptyString ->
      currentProject c = Some (basename_or_general top) /\
      workspacePath c = Some top /\
      ticketsPath c = Some (join top ".tickets")) /\
     (top = EmptyString ->
      currentProject c = Some (basename_or_general (cwd env)) /\
      workspacePath c = Some (cwd env) /\
      ticketsPath c = ticketsPath context)).
Proof.
  intros Hd.
  unfold detectContext, marker, exists_ in *.
  set (branch := executeCommand env "git branch --show-current") in *.
  set (top := executeCommand env "git rev-parse --show-toplevel") in *.
  assert (Htop : Js.trim top = top) by apply executeCommand_trimmed.
  rewrite Htop in Hd.
  destruct (access env (join (cwd env) ".taskproject")) eqn:Ea.
  - destruct (readFile env (join (cwd env) ".taskproject"))
      as [content|] eqn:Er; [|discriminate Hd].
    cbn [bind] in Hd. injection Hd as <-. split.
    + intros content' _ [= <-].
      repeat split_match; fields; auto.
    + intros ? ?. discriminate.
  - destruct (Js.nonempty top) eqn:Et; cbn [bind] in Hd;
      injection Hd as <-;
      (split; [intros ? ?; discriminate|]);
      intros top' _ ->; split; intros Hne.
    + repeat split_match; fields; auto.
    + apply nonempty_true in Et. contradiction.
    + apply nonempty_false in Et. contradiction.
    + repeat split_match; fields; auto.
Qed.

End DetectContextMore.

Lemma detectContext_idempotent_witness :
  detectContext posix_join sample_parse (repo_env "DRX-7" true)
    (mkContext (Some "DRX-7") (Some "shop") (Some "/home/u/shop")
       (Some "/home/u/shop/.tickets"))
  = Returns (mkContext (Some "DRX-7") (Some "shop") (Some "/home/u/shop")
               (Some "/home/u/shop/.tickets")).
Proof.
  apply (detectContext_idempotent posix_join sample_parse
           (repo_env "DRX-7" true) emptyContext).
  reflexivity.
Defined.

Lemma project_sources_precedence_witness :
  (currentProject (mkContext None (Some EmptyString) (Some "/work/app")
                     (Some "/work/app/.tickets"))
   = Some (Js.trim (" " ++ Js.nl)) /\
   workspacePath (mkContext None (Some EmptyString) (Some "/work/app")
                    (Some "/work/app/.tickets"))
   = Some "/work/app" /\
   ticketsPath (mkContext None (Some EmptyString) (Some "/work/app")
                  (Some "/work/app/.tickets"))
   = Some "/work/app/.tickets") /\
  (currentProject (mkContext (Some "DRX-7") (Some "shop")
                     (Some "/home/u/shop") (Some "/home/u/shop/.tickets"))
   = Some (basename_or_general "/home/u/shop") /\
   workspacePath (mkContext (Some "DRX-7") (Some "shop")
                    (Some "/home/u/shop") (Some "/home/u/shop/.tickets"))
   = Some "/home/u/shop" /\
   ticketsPath (mkContext (Some "DRX-7") (Some "shop")
                  (Some "/home/u/shop") (Some "/home/u/shop/.tickets"))
   = Some "/home/u/shop/.tickets").
Proof.
  split.
  - apply (proj1 (project_sources_precedence posix_join no_state
                    blank_marker_env emptyContext
                    (mkContext None (Some EmptyString) (Some "/work/app")
                       (Some "/work/app/.tickets")) eq_refl)
             (" " ++ Js.nl)); reflexivity.
  - apply (proj1 (proj2 (project_sources_precedence posix_join sample_parse
                           (repo_env "DRX-7" true) emptyContext
                           (mkContext (Some "DRX-7") (Some "shop")
                              (Some "/home/u/shop")
                              (Some "/home/u/shop/.tickets")) eq_refl)
                    "/home/u/shop" eq_refl eq_refl)).
    discriminate.
Defined.

(** ** The directory-name fallback *)

Lemma split_no_sep (sep : ascii) (s : string) :
  all_chars (fun c => negb (Ascii.eqb c sep)) s = true ->
  Js.split sep s = [s].
Proof.
  induction s as [|c s IH]; simpl; [reflexivity|].
  intros H. apply andb_true_iff in H as [Hc Hs].
  apply negb_true_iff in Hc. rewrite Hc, (IH Hs). reflexivity.
Qed.

Lemma split_app_sep (sep : ascii) (a b : string) :
  exists first others,
    Js.split sep (a ++ String sep b)
    = ((first :: others) ++ Js.split sep b)%list.
Proof.
  induction a as [|c a IH]; simpl.
  - rewrite Ascii.eqb_refl. now exists EmptyString, [].
  - destruct IH as (first & others & ->).
    destruct (Ascii.eqb c sep).
    + now exists EmptyString, (first :: others).
    + now exists (String c first), others.
Qed.

Lemma pop_app (l m : list string) :
  m <> [] -> Js.pop (l ++ m)%list = Js.pop m.
Proof.
  unfold Js.pop. intros Hm. rewrite rev_app_distr.
  destruct (rev m) eqn:E; [|reflexivity].
  apply (f_equal (@rev string)) in E. rewrite rev_involutive in E.
  contradiction.
Qed.

Lemma split_parts_no_sep (sep : ascii) (s : string) :
  Forall (fun part => all_chars (fun c => negb (Ascii.eqb c sep)) part = true)
    (Js.split sep s).
Proof.
  induction s as [|c s IH]; simpl; [repeat constructor|].
  destruct (Ascii.eqb c sep) eqn:Ec; [now constructor|].
  destruct (Js.split sep s) as [|l ls]; [repeat constructor; simpl; now rewrite Ec|].
  inversion IH; subst. constructor; [|assumption].
  simpl. now rewrite Ec.
Qed.

Lemma pop_in (l : list string) (x : string) : Js.pop l = Some x -> In x l.
Proof.
  unfold Js.pop. destruct (rev l) eqn:E; [discriminate|].
  intros [= ->]. apply in_rev. rewrite E. now left.
Qed.

(** X3.  The directory-name fallback gives the last segment of a path: the
    text after the last slash when there is such a text, and the label
    [general] when the path is empty or ends with a slash (the root
    directory); the name it gives is never empty and holds no slash. *)
Theorem basename_or_general_last_segment :
  (forall dir base,
     all_chars not_slash base = true -> base <> EmptyString ->
     basename_or_general (dir ++ "/" ++ base) = base) /\
  (forall base,
     all_chars not_slash base = true -> base <> EmptyString ->
     basename_or_general base = base) /\
  (forall dir, basename_or_general (dir ++ "/") = "general") /\
  basename_or_general EmptyString = "general" /\
  (forall path,
     basename_or_general path <> EmptyString /\
     all_chars not_slash (basename_or_general path) = true).
Proof.
  unfold basename_or_general. repeat split.
  - intros dir base Hb Hne.
    destruct (split_app_sep "/" dir base) as (first & others & E).
    change (dir ++ "/" ++ base) with (dir ++ String "/" base).
    rewrite E, pop_app by apply split_nonnil.
    rewrite (split_no_sep "/" base Hb).
    apply or_else_present. now apply nonempty_true.
  - intros base Hb Hne. rewrite (split_no_sep "/" base Hb).
    apply or_else_present. now apply nonempty_true.
  - intros dir.
    destruct (split_app_sep "/" dir EmptyString) as (first & others & E).
    change (dir ++ "/") with (dir ++ String "/" EmptyString).
    rewrite E, pop_app by apply split_nonnil. reflexivity.
  - apply or_else_nonempty. discriminate.
  - unfold or_else.
    destruct (truthy (Js.pop (Js.split "/" path))) eqn:Et; [|reflexivity].
    apply truthy_some in Et. apply pop_in in Et.
    pose proof (split_parts_no_sep "/" path) as Hall.
    rewrite Forall_forall in Hall. now apply Hall.
Qed.

Lemma basename_or_general_last_segment_witness :
  basename_or_general "/home/u/shop" = "shop" /\
  basename_or_general "shop" = "shop".
Proof.
  split.
  - apply (proj1 basename_or_general_last_segment "/home/u" "shop");
      [reflexivity | discriminate].
  - apply (proj1 (proj2 basename_or_general_last_segment) "shop");
      [reflexivity | discriminate].
Defined.

(** ** Ticket codes *)

Lemma lit_exact_inv {A : Type} (w s : string) (k : string -> option A)
  (r : A) :
  Js.lit false w s k = Some r -> exists s', s = w ++ s' /\ k s' = Some r.
Proof.
  revert s. induction w as [|a w IH]; intros s; simpl.
  - intros H. now exists s.
  - destruct s as [|b s]; [discriminate|].
    destruct (Ascii.eqb a b) eqn:E; [|discriminate].
    apply Ascii.eqb_eq in E as <-.
    intros H. destruct (IH _ H) as (s' & -> & Hk). now exists s'.
Qed.

(** X4.  A branch name is taken for a ticket exactly when it begins with
    one or more capital letters A to Z, a hyphen and a digit; what follows
    the digit is free. *)
Theorem ticket_code_shape (branch : string) :
  ticket_code branch = true <->
  exists letters digit rest,
    branch = letters ++ "-" ++ String digit rest /\
    letters <> EmptyString /\
    all_chars Js.is_upper letters = true /\
    Js.is_digit digit = true.
Proof.
  unfold ticket_code. split.
  - destruct (Js.plus Js.is_upper branch _) as [[]|] eqn:E; [|discriminate].
    intros _.
    apply plus_inv in E as (letters & s1 & -> & Hne & Hup & E).
    apply lit_exact_inv in E as (s2 & -> & E).
    apply plus_inv in E as (digits & s3 & -> & Hd & Hdig & _).
    destruct digits as [|digit digits]; [congruence|].
    simpl in Hdig. apply andb_true_iff in Hdig as [Hdigit _].
    exists letters, digit, (digits ++ s3). auto.
  - intros (letters & digit & rest & -> & Hne & Hup & Hdig).
    erewrite plus_longest; [reflexivity | |].
    + rewrite take_while_app; auto. reflexivity.
    + rewrite drop_while_app by (auto; reflexivity).
      rewrite lit_prefix.
      apply plus_longest; [|reflexivity].
      simpl. rewrite Hdig. discriminate.
Qed.

(** ** Ticket tasks, continued *)

(** X5.  A line of the checklist yields a task exactly when it starts, at
    its first column, with the five characters of an unchecked box and a
    blank, followed by at least one character that is not a line
    terminator; the task text is what follows up to the first line
    terminator or the end of the line. *)
Theorem checkbox_item_shape (line text : string) :
  checkbox_item line = Some text <->
  exists rest,
    line = "- [ ] " ++ text ++ rest /\
    text <> EmptyString /\
    all_chars Js.dot text = true /\
    stops Js.dot rest.
Proof.
  split.
  - intros H. pose proof H as H'. unfold checkbox_item in H'.
    apply lit_exact_inv in H' as (body & -> & _).
    rewrite checkbox_item_marked in H.
    destruct (Js.nonempty (take_while Js.dot body)) eqn:E; [|discriminate].
    injection H as <-. exists (drop_while Js.dot body). repeat split.
    + now rewrite <- take_drop_while.
    + now apply nonempty_true.
    + apply take_while_all.
    + apply drop_while_stops.
  - intros (rest & -> & Hne & Hall & Hrest).
    rewrite checkbox_item_marked, take_while_app by assumption.
    apply nonempty_true in Hne. now rewrite Hne.
Qed.

Section TicketTasksMore.

Variable join : string -> string -> string.

(** X6.  [getTicketTasks] rejects exactly when the tickets path is set and
    one of the two files of the ticket directory exists but cannot be read;
    in every other case it returns a list. *)
Theorem getTicketTasks_throws_iff (env : Env) (context : ProjectContext)
  (ticket : string) :
  let dir := join (get (ticketsPath context)) ticket in
  getTicketTasks join env context ticket = Throws <->
  truthy (ticketsPath context) = true /\
  ((access env (join dir "mr-checklist.md") = true /\
    readFile env (join dir "mr-checklist.md") = None) \/
   (access env (join dir "context.md") = true /\
    readFile env (join dir "context.md") = None)).
Proof.
  intros dir. unfold getTicketTasks, exists_. fold dir.
  destruct (truthy (ticketsPath context)); simpl;
    [|split; [discriminate | intros [? _]; discriminate]].
  destruct (access env (join dir "mr-checklist.md"));
    destruct (readFile env (join dir "mr-checklist.md"));
    destruct (access env (join dir "context.md"));
    destruct (readFile env (join dir "context.md")); simpl;
    split; try discriminate; auto;
    intros [_ [[? ?]|[? ?]]]; discriminate.
Qed.

Lemma checklist_tasks_one_line (lines : list string) :
  Forall (fun text => one_line text /\ text <> EmptyString)
    (checklist_tasks lines).
Proof.
  induction lines as [|l lines IH]; simpl; [constructor|].
  destruct (checkbox_item l) as [text|] eqn:E; [|exact IH].
  constructor; [|exact IH].
  apply checkbox_item_shape in E as (rest & _ & Hne & Hall & _).
  now split.
Qed.

Lemma all_chars_trimStart (p : ascii -> bool) (s : string) :
  all_chars p s = true -> all_chars p (Js.trimStart s) = true.
Proof.
  induction s as [|c s IH]; simpl; [reflexivity|].
  intros H. destruct (Js.is_space c); [|exact H].
  apply andb_true_iff in H as [_ H]. now apply IH.
Qed.

Lemma all_chars_trimEnd (p : ascii -> bool) (s : string) :
  all_chars p s = true -> all_chars p (Js.trimEnd s) = true.
Proof.
  induction s as [|c s IH]; simpl; [reflexivity|].
  intros H. apply andb_true_iff in H as [Hc H].
  destruct (Js.is_space c && negb (Js.nonempty (Js.trimEnd s)));
    [reflexivity|].
  simpl. now rewrite Hc, IH.
Qed.

Lemma matchAll_fuel_one_line (fuel : nat) (s : string) :
  Forall one_line (matchAll_fuel fuel todo_at s).
Proof.
  revert s. induction fuel as [|fuel IH]; intros s; simpl; [constructor|].
  destruct (Js.search todo_at s) as [[text rest]|] eqn:E; [|constructor].
  constructor; [|apply IH].
  apply search_inv in E as (a & b & _ & E).
  apply todo_at_inv in E as (_ & s2 & _ & _ & -> & _).
  apply take_while_all.
Qed.

Lemma todo_tasks_trimmed_one_line (content : string) :
  Forall (fun text => one_line text /\ Js.trim text = text)
    (todo_tasks content).
Proof.
  unfold todo_tasks, matchAll.
  pose proof (matchAll_fuel_one_line (String.length content) content) as H.
  induction H as [|x l Hx Hl IH]; simpl; constructor; auto.
  split; [|apply trim_idem].
  unfold one_line, Js.trim in *.
  now apply all_chars_trimEnd, all_chars_trimStart.
Qed.

(** X7.  Every task text [getTicketTasks] returns is free of line feeds and
    carriage returns, so each task becomes one command line; the texts from
    the checklist are never empty, and the texts from the notes carry no
    white space at either end. *)
Theorem getTicketTasks_single_lines (env : Env) (context : ProjectContext)
  (ticket : string) (tasks : list string) :
  getTicketTasks join env context ticket = Returns tasks ->
  Forall one_line tasks /\
  (forall content,
     Forall (fun text => text <> EmptyString)
       (checklist_tasks (Js.split Js.LF content))) /\
  (forall content,
     Forall (fun text => Js.trim text = text) (todo_tasks content)).
Proof.
  intros H. split; [|split].
  - unfold getTicketTasks, exists_ in H.
    destruct (truthy (ticketsPath context)); simpl in H;
      [|injection H as <-; constructor].
    assert (Hc : forall content,
              Forall one_line (checklist_tasks (Js.split Js.LF content))).
    { intros content. eapply Forall_impl;
        [|apply checklist_tasks_one_line]. now intros a [Ha _]. }
    assert (Hn : forall content, Forall one_line (todo_tasks content)).
    { intros content. eapply Forall_impl;
        [|apply todo_tasks_trimmed_one_line]. now intros a [Ha _]. }
    revert H. repeat split_match; simpl; intros H; try discriminate;
      injection H as <-; try apply Forall_app; auto.
  - intros content. eapply Forall_impl; [|apply checklist_tasks_one_line].
    now intros a [_ Ha].
  - intros content. eapply Forall_impl;
      [|apply todo_tasks_trimmed_one_line]. now intros a [_ Ha].
Qed.

End TicketTasksMore.

Lemma getTicketTasks_single_lines_witness :
  Forall one_line ["A"; "B"; "ship it"].
Proof.
  apply (getTicketTasks_single_lines posix_join
           (ticket_env (Some ("- [ ] A" ++ String Js.CR Js.nl ++ "- [ ] B"))
                       (Some ("TODO:   ship it  " ++ Js.nl)))
           ticket_context "DRX-1").
  reflexivity.
Defined.

(** ** Task descriptions and scope labels, continued *)

Lemma append_same_l (a x : string) : a ++ x = a -> x = EmptyString.
Proof.
  intros H. apply (f_equal String.length) in H.
  rewrite length_append in H. destruct x; [reflexivity | simpl in H; lia].
Qed.

Lemma append_empty_inv (x y : string) :
  x ++ y = EmptyString -> x = EmptyString /\ y = EmptyString.
Proof. destruct x; simpl; [auto | discriminate]. Qed.

(** X8.  [enhanceTaskDescription] only ever appends: the description is
    kept as the prefix of the result; the result mentions the ticket when
    one is set and a project marker when a project is set; and the
    description comes back unchanged exactly when it already mentions the
    ticket (if one is set) and a project marker (if a project is set). *)
Theorem enhanceTaskDescription_appends (context : ProjectContext)
  (description : string) :
  Js.startsWith description (enhanceTaskDescription context description)
  = true /\
  (truthy (currentTicket context) = true ->
   Js.includes (get (currentTicket context))
     (enhanceTaskDescription context description) = true) /\
  (truthy (currentProject context) = true ->
   Js.includes "project:" (enhanceTaskDescription context description)
   = true) /\
  (enhanceTaskDescription context description = description <->
   (truthy (currentTicket context) = true ->
    Js.includes (get (currentTicket context)) description = true) /\
   (truthy (currentProject context) = true ->
    Js.includes "project:" description = true)).
Proof.
  split; [|split; [|split]].
  - rewrite enhance_shape. apply startsWith_append.
  - apply enhance_keeps_ticket.
  - apply enhance_keeps_project.
  - split.
    + rewrite enhance_shape. intros H.
      apply append_same_l, append_empty_inv in H as [H1 H2].
      split; intros Ht; rewrite Ht in *; cbn [andb] in *.
      * destruct (Js.includes (get (currentTicket context)) description);
          [reflexivity | discriminate].
      * destruct (Js.includes "project:" description);
          [reflexivity | discriminate].
    + intros [H1 H2]. now apply enhance_nothing_to_add.
Qed.

(** X9.  The scope label of [formatTaskwarriorProject] is never empty.  A
    non-empty ticket stored with [setCurrentTicket] becomes the label,
    whatever the project; storing the empty string as ticket gives the
    label of a context without ticket. *)
Theorem formatTaskwarriorProject_label (context : ProjectContext) :
  formatTaskwarriorProject context <> EmptyString /\
  (forall ticket,
     ticket <> EmptyString ->
     formatTaskwarriorProject (setCurrentTicket ticket context) = ticket) /\
  formatTaskwarriorProject (setCurrentTicket EmptyString context) =
  formatTaskwarriorProject
    (mkContext None (currentProject context) (workspacePath context)
       (ticketsPath context)).
Proof.
  unfold formatTaskwarriorProject. repeat split.
  - destruct (truthy (currentTicket context)) eqn:Et;
      [now apply truthy_get_nonempty|].
    destruct (truthy (currentProject context)) eqn:Ep;
      [now apply truthy_get_nonempty | discriminate].
  - intros ticket Hne. simpl. apply nonempty_true in Hne. now rewrite Hne.
Qed.

Lemma formatTaskwarriorProject_label_witness :
  formatTaskwarriorProject
    (setCurrentTicket "DRX-9" (mkContext None (Some "shop") None None))
  = "DRX-9".
Proof.
  apply (proj1 (proj2 (formatTaskwarriorProject_label
                         (mkContext None (Some "shop") None None)))).
  discriminate.
Defined.

(** ** Intent classification, continued *)

Lemma lower_idem (c : ascii) : Js.lower (Js.lower c) = Js.lower c.
Proof.
  destruct c as [[|] [|] [|] [|] [|] [|] [|] [|]]; vm_compute; reflexivity.
Qed.

Lemma is_space_lower (c : ascii) : Js.is_space (Js.lower c) = Js.is_space c.
Proof.
  destruct c as [[|] [|] [|] [|] [|] [|] [|] [|]]; vm_compute; reflexivity.
Qed.

Lemma eq_ci_lower (a b : ascii) : Js.eq_ci a (Js.lower b) = Js.eq_ci a b.
Proof. unfold Js.eq_ci. now rewrite lower_idem. Qed.

Lemma lit_to_lower {A : Type} (w s : string) (k : string -> option A) :
  Js.lit true w (to_lower s) k = Js.lit true w s (fun r => k (to_lower r)).
Proof.
  revert s. induction w as [|a w IH]; intros s; simpl; [reflexivity|].
  destruct s as [|b s]; simpl; [reflexivity|].
  rewrite eq_ci_lower. destruct (Js.eq_ci a b); [apply IH | reflexivity].
Qed.

Lemma strip_trigger_to_lower (alts : list string) (s : string) :
  strip_trigger alts (to_lower s) = option_map to_lower (strip_trigger alts s).
Proof.
  unfold strip_trigger. induction alts as [|w alts IH]; simpl; [reflexivity|].
  rewrite lit_to_lower, !lit_strip.
  destruct (strip_ci w s); [reflexivity | exact IH].
Qed.

Lemma trimStart_to_lower (s : string) :
  Js.trimStart (to_lower s) = to_lower (Js.trimStart s).
Proof.
  induction s as [|c s IH]; simpl; [reflexivity|].
  rewrite is_space_lower. now destruct (Js.is_space c).
Qed.

Lemma nonempty_to_lower (s : string) :
  Js.nonempty (to_lower s) = Js.nonempty s.
Proof. now destruct s. Qed.

Lemma trimEnd_to_lower (s : string) :
  Js.trimEnd (to_lower s) = to_lower (Js.trimEnd s).
Proof.
  induction s as [|c s IH]; simpl; [reflexivity|].
  rewrite IH, is_space_lower, nonempty_to_lower.
  now destruct (Js.is_space c && negb (Js.nonempty (Js.trimEnd s))).
Qed.

Lemma trim_to_lower (s : string) : Js.trim (to_lower s) = to_lower (Js.trim s).
Proof. unfold Js.trim. now rewrite trimStart_to_lower, trimEnd_to_lower. Qed.

Lemma classify_to_lower (q : string) :
  classify (to_lower q) = (fst (classify q), to_lower (snd (classify q))).
Proof.
  unfold classify.
  induction TASK_PATTERNS as [|[key alts] rest IH]; simpl; [reflexivity|].
  rewrite strip_trigger_to_lower.
  destruct (strip_trigger alts q); simpl; [|exact IH].
  now rewrite trim_to_lower.
Qed.

Lemma classify_same_letters (q1 q2 : string) :
  to_lower q1 = to_lower q2 -> fst (classify q1) = fst (classify q2).
Proof.
  intros E.
  pose proof (classify_to_lower q1) as H1.
  pose proof (classify_to_lower q2) as H2.
  rewrite E, H2 in H1. now injection H1.
Qed.

(** X10.  Classification ignores the case of the letters A to Z: writing a
    query in small letters keeps its intent and only turns the residual
    text into small letters; so two queries that differ in case alone get
    the same intent. *)
Theorem classify_ignores_case :
  (forall q,
     classify (to_lower q) = (fst (classify q), to_lower (snd (classify q)))) /\
  (forall q1 q2,
     to_lower q1 = to_lower q2 -> fst (classify q1) = fst (classify q2)).
Proof. split; [apply classify_to_lower | apply classify_same_letters]. Qed.

Lemma classify_ignores_case_witness :
  fst (classify "ADD Milk") = fst (classify "add milk").
Proof.
  apply (proj2 classify_ignores_case). reflexivity.
Defined.

Lemma to_lower_idem (s : string) : to_lower (to_lower s) = to_lower s.
Proof.
  induction s as [|c s IH]; simpl; [reflexivity|].
  now rewrite lower_idem, IH.
Qed.

Lemma strip_ci_to_lower (w q r : string) :
  strip_ci w q = Some r -> to_lower q = to_lower w ++ to_lower r.
Proof.
  unfold strip_ci. revert q.
  induction w as [|a w IH]; intros q; simpl.
  - now intros [= ->].
  - destruct q as [|b q]; [discriminate|].
    destruct (Js.eq_ci a b) eqn:E; [|discriminate].
    intros H. simpl. rewrite (IH _ H).
    unfold Js.eq_ci in E. apply Ascii.eqb_eq in E. now rewrite E.
Qed.

Lemma classify_add_trigger (w rest : string) :
  In w ["add"; "create"; "new"; "make"; "todo"; "task"] ->
  classify (w ++ rest) = ("add", Js.trim rest).
Proof.
  intros Hin. simpl in Hin.
  repeat (destruct Hin as [<-|Hin]; [reflexivity|]). contradiction.
Qed.

(** X11.  The triggers of [add] are matched as bare prefixes, with no word
    boundary after them: a query made of such a trigger and any text is an
    [add] request whose residual is the trimmed text.  As [task] and [todo]
    are among them, the alternatives [tasks] and [todos] of the pattern of
    [list] never decide a classification: every query they match is an
    [add] request. *)
Theorem add_triggers_are_prefixes :
  (forall w rest,
     In w ["add"; "create"; "new"; "make"; "todo"; "task"] ->
     classify (w ++ rest) = ("add", Js.trim rest)) /\
  (forall q,
     test ["tasks"; "todos"] q = true -> fst (classify q) = "add").
Proof.
  pose proof classify_add_trigger as H1.
  split; [exact H1|].
  intros q Ht.
  rewrite (classify_same_letters q (to_lower q))
    by (symmetry; apply to_lower_idem).
  unfold test, strip_trigger in Ht. cbn [Js.alt] in Ht.
  rewrite !lit_strip in Ht.
  destruct (strip_ci "tasks" q) as [r|] eqn:E1.
  - rewrite (strip_ci_to_lower _ _ _ E1).
    change (to_lower "tasks" ++ to_lower r)
      with ("task" ++ String "s" (to_lower r)).
    now rewrite (H1 "task" (String "s" (to_lower r))) by (simpl; auto 10).
  - destruct (strip_ci "todos" q) as [r|] eqn:E2; [|discriminate Ht].
    rewrite (strip_ci_to_lower _ _ _ E2).
    change (to_lower "todos" ++ to_lower r)
      with ("todo" ++ String "s" (to_lower r)).
    now rewrite (H1 "todo" (String "s" (to_lower r))) by (simpl; auto 10).
Qed.

Lemma add_triggers_are_prefixes_witness :
  classify "additional info" = ("add", "itional info") /\
  fst (classify "Tasks for today") = "add".
Proof.
  split.
  - apply (proj1 add_triggers_are_prefixes "add" "itional info").
    simpl. auto.
  - apply (proj2 add_triggers_are_prefixes). reflexivity.
Defined.

Lemma strip_ci_split (w q r : string) :
  strip_ci w q = Some r ->
  exists prefix, q = prefix ++ r /\ to_lower prefix = to_lower w.
Proof.
  unfold strip_ci. revert q.
  induction w as [|a w IH]; intros q; simpl.
  - intros [= ->]. now exists EmptyString.
  - destruct q as [|b q]; [discriminate|].
    destruct (Js.eq_ci a b) eqn:E; [|discriminate].
    intros H. destruct (IH _ H) as (prefix & -> & Hp).
    exists (String b prefix). split; [reflexivity|].
    simpl. rewrite Hp.
    unfold Js.eq_ci in E. apply Ascii.eqb_eq in E. now rewrite E.
Qed.

Lemma strip_trigger_split (alts : list string) (q r : string) :
  strip_trigger alts q = Some r ->
  exists w prefix,
    In w alts /\ q = prefix ++ r /\ to_lower prefix = to_lower w.
Proof.
  unfold strip_trigger. induction alts as [|w alts IH]; simpl;
    [discriminate|].
  rewrite lit_strip. destruct (strip_ci w q) as [r'|] eqn:E.
  - intros [= <-]. destruct (strip_ci_split _ _ _ E) as (prefix & Hq & Hp).
    exists w, prefix. auto.
  - intros H. destruct (IH H) as (w' & prefix & Hin & Hq & Hp).
    exists w', prefix. auto.
Qed.

Lemma triggers_lowercase (key : string) (alts : list string) (w : string) :
  In (key, alts) TASK_PATTERNS -> In w alts -> to_lower w = w.
Proof.
  intros Hin Hw. simpl in Hin.
  repeat (destruct Hin as [Hin|Hin];
          [injection Hin as <- <-; simpl in Hw;
           repeat (destruct Hw as [<-|Hw]; [reflexivity|]); contradiction|]).
  contradiction.
Qed.

Lemma classify_loop_split (patterns : list (string * list string))
  (q : string) :
  (exists key alts, In (key, alts) patterns /\ test alts q = true) ->
  exists key alts w prefix rest,
    In (key, alts) patterns /\ In w alts /\
    q = prefix ++ rest /\ to_lower prefix = to_lower w /\
    classify_loop patterns q = (key, Js.trim rest).
Proof.
  induction patterns as [|[key alts] patterns IH]; simpl.
  - intros (? & ? & [] & _).
  - intros Hsome. destruct (strip_trigger alts q) as [r|] eqn:E.
    + destruct (strip_trigger_split _ _ _ E) as (w & prefix & Hw & Hq & Hp).
      exists key, alts, w, prefix, r. auto 10.
    + destruct IH as (key' & alts' & w & prefix & rest & H1 & H2).
      * destruct Hsome as (k & a & [[= <- <-]|Hin] & Ht).
        -- unfold test in Ht. rewrite E in Ht. discriminate.
        -- now exists k, a.
      * exists key', alts', w, prefix, rest. split; [now right | exact H2].
Qed.

(** X12.  When a declared pattern matches, classification only cuts and
    trims: the query is a prefix followed by a rest, the prefix is, up to
    the case of its letters, one of the trigger words of the intent
    returned, and the residual text is the rest with the white space at its
    two ends removed, so that trimming it again changes nothing. *)
Theorem classify_cuts_trigger (q : string) :
  (exists key alts, In (key, alts) TASK_PATTERNS /\ test alts q = true) ->
  exists key alts w prefix rest,
    In (key, alts) TASK_PATTERNS /\ In w alts /\
    q = prefix ++ rest /\ to_lower prefix = w /\
    classify q = (key, Js.trim rest) /\
    Js.trim (snd (classify q)) = snd (classify q).
Proof.
  intros H.
  destruct (classify_loop_split TASK_PATTERNS q H)
    as (key & alts & w & prefix & rest & Hin & Hw & Hq & Hp & Hc).
  exists key, alts, w, prefix, rest. repeat split; auto.
  - now rewrite Hp, (triggers_lowercase key alts w).
  - unfold classify. rewrite Hc. apply trim_idem.
Qed.

Lemma classify_cuts_trigger_witness :
  exists key alts w prefix rest,
    In (key, alts) TASK_PATTERNS /\ In w alts /\
    "Mark  task 5 " = prefix ++ rest /\ to_lower prefix = w /\
    classify "Mark  task 5 " = (key, Js.trim rest) /\
    Js.trim (snd (classify "Mark  task 5 ")) = snd (classify "Mark  task 5 ").
Proof.
  apply (classify_cuts_trigger "Mark  task 5 ").
  exists "complete", ["done"; "complete"; "finish"; "mark"; "check"].
  split; [simpl; auto 10 | reflexivity].
Defined.

(** ** Command synthesis, continued *)

Lemma classify_key_declared (q : string) :
  In (fst (classify q)) (map fst TASK_PATTERNS).
Proof.
  unfold classify. rewrite classify_loop_find.
  destruct (find (fun p => test (snd p) q) TASK_PATTERNS) as [p|] eqn:E.
  - apply find_some in E as [Hin _]. now apply in_map.
  - simpl. auto.
Qed.

Lemma synthesize_verb (action args : string) (context : ProjectContext) :
  In action (map fst TASK_PATTERNS) ->
  In (fst (synthesize action args context)) verbs.
Proof.
  intros Hin. simpl in Hin. unfold synthesize.
  repeat (destruct Hin as [<-|Hin];
          [cbn [String.eqb Ascii.eqb Bool.eqb];
           try destruct (taskIdMatch args);
           try destruct (Js.nonempty args); simpl; auto 10|]).
  contradiction.
Qed.

Section BridgeMore.

Variable join : string -> string -> string.
Variable parseTaskState : string -> option TaskState.

(** X13.  Whatever the query, the verb [parseNaturalLanguage] returns is
    one of eight: [add], [list], [done], [modify], [delete], [prioritize],
    [context], [next]; no text of the query ever becomes the verb, and the
    intent name [complete] is never handed to the external tool. *)
Theorem parseNaturalLanguage_verbs (env : Env) (context : ProjectContext)
  (query verb args : string) :
  parseNaturalLanguage join parseTaskState env context query
  = Returns (verb, args) ->
  In verb verbs /\ verb <> "complete".
Proof.
  unfold parseNaturalLanguage.
  pose proof (classify_key_declared query) as Hk.
  destruct (classify query) as [action residual]. simpl in Hk.
  destruct (detectContext join parseTaskState env context) as [c|];
    [|discriminate].
  cbn [bind]. intros [= H].
  pose proof (synthesize_verb action residual c Hk) as Hv.
  rewrite H in Hv. simpl in Hv. split; [exact Hv|].
  unfold verbs in Hv. simpl in Hv.
  intros ->. repeat (destruct Hv as [Hv|Hv]; [discriminate|]).
  contradiction.
Qed.

End BridgeMore.

Lemma parseNaturalLanguage_verbs_witness :
  In "done" verbs /\ "done" <> "complete".
Proof.
  apply (parseNaturalLanguage_verbs posix_join sample_parse
           (repo_env "DRX-7" true) emptyContext "finish 12" "done" "12").
  reflexivity.
Defined.

Lemma plus_capture {A : Type} (p : ascii -> bool) (s : string)
  (f : string -> A) :
  Js.plus p s (fun s' => Some (f s')) =
  if Js.nonempty (take_while p s) then Some (f (drop_while p s)) else None.
Proof.
  destruct (Js.nonempty (take_while p s)) eqn:E.
  - apply plus_longest; [now apply nonempty_true | reflexivity].
  - apply plus_none_head, take_while_empty_stops. now apply nonempty_false.
Qed.

(** The explicit project of a [list] request is one token: not empty and
    free of white space. *)
Lemma projectMatch_token (args token : string) :
  projectMatch args = Some token ->
  token <> EmptyString /\ all_chars Js.non_space token = true.
Proof.
  unfold projectMatch. intros H.
  apply search_inv in H as (a & b & _ & H).
  rewrite lit_strip in H.
  destruct (strip_ci "project" b) as [s1|]; [|discriminate].
  unfold Js.one in H. destruct s1 as [|c s2]; [discriminate|].
  destruct (Ascii.eqb c ":" || Ascii.eqb c " "); [|discriminate].
  rewrite (plus_capture Js.non_space s2 (fun s3 => Js.between s2 s3)) in H.
  destruct (Js.nonempty (take_while Js.non_space s2)) eqn:E; [|discriminate].
  injection H as <-. rewrite between_take_drop.
  split; [now apply nonempty_true | apply take_while_all].
Qed.

Lemma trimEnd_cons_keep (c : ascii) (s : string) :
  Js.nonempty (Js.trimEnd s) = true ->
  Js.trimEnd (String c s) = String c (Js.trimEnd s).
Proof. simpl. intros ->. now rewrite andb_false_r. Qed.

Lemma trimEnd_app_keep (a b : string) :
  Js.nonempty (Js.trimEnd b) = true ->
  Js.trimEnd (a ++ b) = a ++ Js.trimEnd b.
Proof.
  intros Hb. induction a as [|c a IH]; [reflexivity|].
  change (String c a ++ b) with (String c (a ++ b)).
  rewrite trimEnd_cons_keep; rewrite IH; [reflexivity|].
  now destruct a.
Qed.

(** A filter word followed by the project-scope filter, trimmed. *)
Lemma trim_cue_filter (cue : string) (context : ProjectContext) :
  stops Js.is_space cue -> cue <> EmptyString ->
  Js.trim (cue ++ " " ++ projectFilter context) =
  if truthy (currentProject context)
  then cue ++ " project:" ++ Js.trimEnd (get (currentProject context))
  else Js.trimEnd (cue ++ " ").
Proof.
  intros Hstop Hne. unfold Js.trim, projectFilter.
  rewrite trimStart_fixed
    by (destruct cue; [congruence | exact Hstop]).
  destruct (truthy (currentProject context)).
  - change (cue ++ " " ++ "project:" ++ get (currentProject context))
      with (cue ++ " project" ++ String ":" (get (currentProject context))).
    rewrite <- !append_assoc.
    rewrite trimEnd_app_keep; [|reflexivity].
    rewrite !append_assoc. reflexivity.
  - reflexivity.
Qed.

(** X14.  How a [list] request is filtered.  The cues are tried in a fixed
    order: [today] or [now] anywhere in the residual text gives the
    due-today filter, else [urgent] or [high] gives the high-priority
    filter, each followed by the project of the context when there is one
    and by nothing otherwise; else the word [project] makes the request
    independent of the context: its argument is empty, or [project:] and
    one token, not empty and free of white space, taken from the text. *)
Theorem list_filters (args : string) (context : ProjectContext) :
  let cued a b := Js.includes a args || Js.includes b args in
  let scoped filter :=
    if truthy (currentProject context)
    then filter ++ " project:" ++ Js.trimEnd (get (currentProject context))
    else filter in
  (cued "today" "now" = true ->
   synthesize "list" args context = ("list", scoped "due:today")) /\
  (cued "today" "now" = false -> cued "urgent" "high" = true ->
   synthesize "list" args context = ("list", scoped "priority:H")) /\
  (cued "today" "now" = false -> cued "urgent" "high" = false ->
   Js.includes "project" args = true ->
   (forall context',
      synthesize "list" args context' = synthesize "list" args context) /\
   (synthesize "list" args context = ("list", EmptyString) \/
    exists token,
      synthesize "list" args context = ("list", "project:" ++ token) /\
      token <> EmptyString /\ all_chars Js.non_space token = true)).
Proof.
  intros cued scoped. unfold cued, scoped, synthesize.
  cbn [String.eqb Ascii.eqb Bool.eqb]. split; [|split].
  - intros ->.
    change ("due:today " ++ projectFilter context)
      with ("due:today" ++ " " ++ projectFilter context).
    rewrite (trim_cue_filter "due:today"); [|reflexivity|discriminate].
    now destruct (truthy (currentProject context)).
  - intros -> ->.
    change ("priority:H " ++ projectFilter context)
      with ("priority:H" ++ " " ++ projectFilter context).
    rewrite (trim_cue_filter "priority:H"); [|reflexivity|discriminate].
    now destruct (truthy (currentProject context)).
  - intros -> -> ->. split; [reflexivity|].
    destruct (projectMatch args) as [token|] eqn:E; [|now left].
    right. exists token. split; [reflexivity|].
    exact (projectMatch_token args token E).
Qed.

Lemma list_filters_witness :
  synthesize "list" "urgent tasks for today"
    (mkContext None (Some "shop") None None)
  = ("list", "due:today project:shop") /\
  synthesize "list" "high ones" emptyContext = ("list", "priority:H") /\
  (forall context',
     synthesize "list" "in project web" context'
     = synthesize "list" "in project web" emptyContext).
Proof.
  split; [|split].
  - apply (proj1 (list_filters "urgent tasks for today"
                    (mkContext None (Some "shop") None None))).
    reflexivity.
  - apply (proj1 (proj2 (list_filters "high ones" emptyContext)));
      reflexivity.
  - intros context'.
    apply (proj1 (proj2 (proj2 (list_filters "in project web" emptyContext))
                    eq_refl eq_refl eq_refl)).
Defined.

(** ** Output normalisation, continued *)

Lemma split_line (l rest : string) :
  all_chars (fun c => negb (Ascii.eqb c Js.LF)) l = true ->
  Js.split Js.LF (l ++ String Js.LF rest) = l :: Js.split Js.LF rest.
Proof.
  induction l as [|c l IH]; simpl; [reflexivity|].
  intros H. apply andb_true_iff in H as [Hc Hl].
  apply negb_true_iff in Hc. rewrite Hc, (IH Hl). reflexivity.
Qed.

(** X15.  Normalisation is idempotent: normalising a normalised output
    under the same verb changes nothing more, as the block it builds opens
    with a line that mentions [tasks] and so stops the row collection. *)
Theorem formatOutput_idempotent (output action : string) :
  formatOutput (formatOutput output action) action
  = formatOutput output action.
Proof.
  unfold formatOutput at 2 3.
  destruct ((action =? "list") || (action =? "next")) eqn:Ea.
  - destruct (Nat.ltb 0 (List.length (collect_tasks _ false))) eqn:El.
    + set (block := Js.join Js.nl _).
      unfold formatOutput. rewrite Ea.
      change ("Current tasks:" ++ Js.nl ++ block)
        with ("Current tasks:" ++ String Js.LF block).
      rewrite split_line by reflexivity.
      reflexivity.
    + unfold formatOutput. now rewrite Ea, El.
  - unfold formatOutput. now rewrite Ea.
Qed.

Lemma collect_tasks_no_header (lines : list string) :
  (forall l, In l lines -> header_line l = false) ->
  collect_tasks lines false = [].
Proof.
  induction lines as [|l lines IH]; intros H; simpl; [reflexivity|].
  rewrite (H l) by now left. simpl.
  destruct (Js.includes "tasks" l); simpl; [reflexivity|].
  apply IH. intros l' Hl'. apply H. now right.
Qed.

Lemma digit_not_space (c : ascii) :
  Js.is_digit c = true -> Js.is_space c = false.
Proof.
  destruct c as [[|] [|] [|] [|] [|] [|] [|] [|]]; vm_compute; congruence.
Qed.

Lemma trimStart_spaces (sp s : string) :
  all_chars Js.is_space sp = true -> stops Js.is_space s ->
  Js.trimStart (sp ++ s) = s.
Proof.
  induction sp as [|c sp IH]; simpl; intros Hsp Hs.
  - now apply trimStart_fixed.
  - apply andb_true_iff in Hsp as [-> Hsp]. now apply IH.
Qed.

(** A line [row_line] accepts is white space followed by a digit. *)
Lemma row_line_inv (line : string) :
  row_line line = true ->
  exists sp d more,
    line = sp ++ String d more /\
    all_chars Js.is_space sp = true /\ Js.is_digit d = true.
Proof.
  unfold row_line, Js.star.
  set (k := fun s1 => Js.plus Js.is_digit s1 _).
  assert (Hk : forall s1 r, k s1 = Some r ->
                 exists d more, s1 = String d more /\ Js.is_digit d = true).
  { intros s1 r H. unfold k in H.
    apply plus_inv in H as (digits & s2 & -> & Hne & Hd & _).
    destruct digits as [|d digits]; [congruence|].
    simpl in Hd. apply andb_true_iff in Hd as [Hd _].
    now exists d, (digits ++ s2). }
  destruct (Js.plus Js.is_space line k) as [r|] eqn:E.
  - intros _. apply plus_inv in E as (sp & s1 & -> & _ & Hsp & E).
    destruct (Hk _ _ E) as (d & more & -> & Hd). now exists sp, d, more.
  - intros H.
    assert (E' : exists r, k line = Some r)
      by (unfold k; destruct (Js.plus Js.is_digit line _);
          [eauto | discriminate H]).
    destruct E' as [r E'].
    destruct (Hk _ _ E') as (d & more & -> & Hd).
    now exists EmptyString, d, more.
Qed.

(** X16.  Without a header line nothing is reshaped: the raw output comes
    back under every verb.  And every row of a [Current tasks:] block
    begins with a digit and carries no white space at either end. *)
Theorem formatOutput_rows (output action : string) :
  ((forall l, In l (output_lines output) -> header_line l = false) ->
   formatOutput output action = output) /\
  (forall row,
     In row (task_rows output) ->
     Js.trim row = row /\
     exists d more, row = String d more /\ Js.is_digit d = true).
Proof.
  split.
  - intros H. unfold formatOutput. fold (output_lines output).
    rewrite (collect_tasks_no_header _ H).
    now destruct ((action =? "list") || (action =? "next")).
  - intros row Hin.
    apply collect_tasks_sound in Hin
      as (before & line & after & _ & Hr & -> & _).
    split; [apply trim_idem|].
    apply row_line_inv in Hr as (sp & d & more & -> & Hsp & Hd).
    unfold Js.trim. rewrite trimStart_spaces;
      [|exact Hsp | now apply digit_not_space].
    exists d. simpl. rewrite (digit_not_space d Hd). simpl.
    now exists (Js.trimEnd more).
Qed.

Lemma formatOutput_rows_witness :
  formatOutput ("No matches." ++ Js.nl ++ "12 is not an id") "list"
  = "No matches." ++ Js.nl ++ "12 is not an id".
Proof.
  apply (proj1 (formatOutput_rows _ "list")).
  intros l Hin. simpl in Hin.
  repeat (destruct Hin as [<-|Hin]; [reflexivity|]). contradiction.
Defined.

(** ** Scope after detection *)

Section Scope.

Variable join : string -> string -> string.
Variable parseTaskState : string -> option TaskState.



End Scope.


(** ** Ticket directories *)

(** X18.  [listTickets] never fails: it returns the empty list when the
    tickets path is unset or cannot be listed.  Otherwise it returns, in
    the order of enumeration, the names of exactly those entries that are
    directories and whose name starts with [DRX-]; so a ticket whose code
    has another prefix is never listed, even when it is the current
    ticket. *)
Theorem listTickets_entries (readdir : string -> option (list Dirent))
  (context : ProjectContext) :
  (truthy (ticketsPath context) = false -> listTickets readdir context = []) /\
  (readdir (get (ticketsPath context)) = None ->
   listTickets readdir context = []) /\
  (forall entries,
     truthy (ticketsPath context) = true ->
     readdir (get (ticketsPath context)) = Some entries ->
     forall ticket,
       In ticket (listTickets readdir context) <->
       exists e,
         In e entries /\ name e = ticket /\ isDirectory e = true /\
         Js.startsWith "DRX-" ticket = true) /\
  (forall ticket,
     Js.startsWith "DRX-" ticket = false ->
     ~ In ticket (listTickets readdir context)).
Proof.
  unfold listTickets. repeat split.
  - now intros ->.
  - intros ->. now destruct (truthy (ticketsPath context)).
  - rewrite H, H0. simpl. intros Hin.
    apply in_map_iff in Hin as (e & <- & He).
    apply filter_In in He as [He Hf].
    apply andb_true_iff in Hf as [Hd Hs]. now exists e.
  - rewrite H, H0. simpl. intros (e & He & <- & Hd & Hs).
    apply in_map_iff. exists e. split; [reflexivity|].
    apply filter_In. split; [exact He|]. now rewrite Hd, Hs.
  - intros ticket Hs Hin.
    destruct (truthy (ticketsPath context)); cbn [negb] in Hin;
      [|contradiction].
    destruct (readdir (get (ticketsPath context))); [|contradiction].
    apply in_map_iff in Hin as (e & <- & He).
    apply filter_In in He as [_ Hf].
    apply andb_true_iff in Hf as [_ Hs']. congruence.
Qed.

Lemma listTickets_entries_witness :
  ~ In "ABC-12"
      (listTickets
         (fun _ => Some [mkDirent "ABC-12" true; mkDirent "DRX-1" true;
                         mkDirent "DRX-2" false])
         ticket_context) /\
  (In "DRX-1"
     (listTickets
        (fun _ => Some [mkDirent "ABC-12" true; mkDirent "DRX-1" true;
                        mkDirent "DRX-2" false])
        ticket_context)).
Proof.
  split.
  - apply (proj2 (proj2 (proj2 (listTickets_entries _ ticket_context)))).
    reflexivity.
  - apply (proj1 (proj2 (proj2 (listTickets_entries _ ticket_context)))
             _ eq_refl eq_refl "DRX-1").
    exists (mkDirent "DRX-1" true). simpl. auto.
Defined.

(** ** Importing the tasks of a ticket *)

Section Sync.

Variable join : string -> string -> string.
Variable execTask : string -> string + string.
Variable added_mark failed_mark : string.



End Sync.


(** ** Adding through natural language *)

Section NaturalAdd.

Variable join : string -> string -> string.
Variable parseTaskState : string -> option TaskState.

(** X20.  An [add] request passes its text through untouched by the
    context: whenever the request is answered, the verb is [add] and the
    argument is the text after the trigger with the white space at its ends
    removed, whatever project or ticket was detected.  The detection is run
    all the same, and the request throws exactly when the detection
    throws. *)
Theorem natural_add_verbatim (env : Env) (context : ProjectContext)
  (w rest : string) :
  In w ["add"; "create"; "new"; "make"; "todo"; "task"] ->
  (forall verb args,
     parseNaturalLanguage join parseTaskState env context (w ++ rest)
     = Returns (verb, args) ->
     verb = "add" /\ args = Js.trim rest) /\
  (parseNaturalLanguage join parseTaskState env context (w ++ rest) = Throws
   <-> detectContext join parseTaskState env context = Throws).
Proof.
  intros Hin. unfold parseNaturalLanguage.
  rewrite (classify_add_trigger w rest Hin).
  destruct (detectContext join parseTaskState env context); cbn [bind];
    split.
  - intros verb args [= <- <-]. now split.
  - split; intros H; discriminate H.
  - intros verb args H. discriminate H.
  - split; reflexivity.
Qed.

End NaturalAdd.

Lemma natural_add_verbatim_witness :
  ("add" = "add" /\
   "buy milk project:home" = Js.trim "  buy milk project:home ") /\
  parseNaturalLanguage posix_join no_state unreadable_marker_env
    emptyContext ("add" ++ " milk")
  = Throws.
Proof.
  split.
  - apply (proj1 (natural_add_verbatim posix_join sample_parse
                    (repo_env "DRX-7" true) emptyContext "todo"
                    "  buy milk project:home " (or_intror (or_intror
                      (or_intror (or_intror (or_introl eq_refl))))))
             "add" "buy milk project:home").
    reflexivity.
  - apply (proj2 (natural_add_verbatim posix_join no_state
                    unreadable_marker_env emptyContext "add" " milk"
                    (or_introl eq_refl))).
    reflexivity.
Defined.

(** ** Tasks come from markers only *)

Lemma to_lower_append (a b : string) :
  to_lower (a ++ b) = to_lower a ++ to_lower b.
Proof. induction a as [|c a IH]; simpl; [reflexivity | now rewrite IH]. Qed.

Lemma includes_of_startsWith (w s : string) :
  Js.startsWith w s = true -> Js.includes w s = true.
Proof. intros H. destruct s; simpl; now rewrite H. Qed.

Lemma search_todo_mentions (s text rest : string) :
  Js.search todo_at s = Some (text, rest) ->
  Js.includes "todo" (to_lower s) = true.
Proof.
  intros H. apply search_inv in H as (a & b & -> & H).
  unfold todo_at in H. rewrite lit_strip in H.
  destruct (strip_ci "TODO" b) as [s1|] eqn:E; [|discriminate].
  rewrite to_lower_append. apply includes_append_r.
  rewrite (strip_ci_to_lower _ _ _ E).
  apply (includes_prefix "todo").
Qed.

Lemma split_parts_infix (content line : string) :
  In line (Js.split Js.LF content) ->
  exists a b, content = a ++ line ++ b.
Proof.
  revert line.
  assert (H : forall n content, String.length content <= n ->
            forall line, In line (Js.split Js.LF content) ->
            exists a b, content = a ++ line ++ b).
  { induction n as [|n IH]; intros c Hlen line Hin.
    - destruct c; [|simpl in Hlen; lia].
      simpl in Hin. destruct Hin as [<-|[]].
      now exists EmptyString, EmptyString.
    - destruct (split_LF_cases c) as [[_ Hs]|(l & rest & -> & _ & Hs)];
        rewrite Hs in Hin.
      + destruct Hin as [<-|[]]. exists EmptyString, EmptyString.
        simpl. now rewrite append_empty_r.
      + destruct Hin as [<-|Hin].
        * now exists EmptyString, (String Js.LF rest).
        * rewrite length_append in Hlen. simpl in Hlen.
          destruct (IH rest ltac:(lia) line Hin) as (a & b & ->).
          exists (l ++ String Js.LF a), b.
          now rewrite !append_assoc. }
  intros line. now apply (H (String.length content)).
Qed.

Lemma checklist_tasks_none (lines : list string) :
  (forall l, In l lines -> checkbox_item l = None) ->
  checklist_tasks lines = [].
Proof.
  induction lines as [|l lines IH]; intros H; simpl; [reflexivity|].
  rewrite (H l) by now left. apply IH. intros l' Hl'. apply H. now right.
Qed.

(** X21.  Tasks come from markers only: notes in which the word TODO does
    not occur, in capital or small letters, yield no task, and a checklist
    in which the text of an unchecked box followed by a blank does not
    occur yields none either. *)
Theorem no_marker_no_task (content : string) :
  (Js.includes "todo" (to_lower content) = false ->
   todo_tasks content = []) /\
  (Js.includes "- [ ] " content = false ->
   checklist_tasks (Js.split Js.LF content) = []).
Proof.
  split.
  - intros H. unfold todo_tasks. rewrite matchAll_step.
    destruct (Js.search todo_at content) as [[text rest]|] eqn:E;
      [|reflexivity].
    apply search_todo_mentions in E. congruence.
  - intros H. apply checklist_tasks_none. intros l Hl.
    destruct (checkbox_item l) as [text|] eqn:E; [|reflexivity].
    unfold checkbox_item in E.
    apply lit_exact_inv in E as (body & -> & _).
    apply split_parts_infix in Hl as (a & b & Hc).
    rewrite Hc in H. rewrite append_assoc in H.
    rewrite includes_infix in H. discriminate.
Qed.

Lemma no_marker_no_task_witness :
  todo_tasks ("Things to do" ++ Js.nl ++ "- call Ann") = [] /\
  checklist_tasks (Js.split Js.LF ("- [x] done" ++ Js.nl ++ "-[ ] tight")) = [].
Proof.
  split.
  - apply (proj1 (no_marker_no_task _)). reflexivity.
  - apply (proj2 (no_marker_no_task _)). reflexivity.
Defined.
